(** * Flight-school auditor: weather minimums

    A shallow embedding of [violations.py] and [app.py].

    Python values are modelled as follows.
    - A Python [float] is a binary64 value: Rocq's primitive [float]. An
      [int] among the measurements or the limits is used through its
      float value, as Python's arithmetic and comparisons do.
    - A measurement dictionary (parsed JSON) is a finite map from key
      strings to values that are numbers or strings.
    - A call either returns or raises: [result A].
    - Console output, file access and the test suite are events of a
      trace: [io A].
    The modules [utils], [pilots] and [tests] are imported by the audited
    code but are not part of it; they appear as the interface
    [collaborators]. *)

From Stdlib Require Import Floats ZArith NArith Ascii Lia.
From stdpp Require Import gmap strings list fin_maps pretty.


(** ** Exceptions and results *)

Inductive exn : Type :=
| KeyError (key : string)
| UnboundLocalError (var : string)
| TypeError
| ValueError
| IndexError
| ExternalError (what : string).

Inductive result (A : Type) : Type :=
| Ok (a : A)
| Raise (e : exn).
Arguments Ok {A} a.
Arguments Raise {A} e.

#[global] Instance result_ret : MRet result := fun A a => Ok a.
#[global] Instance result_bind : MBind result := fun A B f r =>
  match r with
  | Ok a => f a
  | Raise e => Raise e
  end.
#[global] Instance result_fmap : FMap result := fun A B f r =>
  match r with
  | Ok a => Ok (f a)
  | Raise e => Raise e
  end.

(** ** Values stored in a measurement dictionary *)

Inductive value : Type :=
| VNum (x : float)
| VStr (s : string).

(** A measurement dictionary or a cloud layer. *)
Abbreviation pydict := (gmap string value).

(** [d[k]] *)
Definition getitem (d : pydict) (k : string) : result value :=
  match d !! k with
  | Some v => Ok v
  | None => Raise (KeyError k)
  end.

(** [k in d] *)
Definition has_key (d : pydict) (k : string) : bool :=
  bool_decide (is_Some (d !! k)).

(** [v == s] for a string literal [s]. *)
Definition value_is (v : value) (s : string) : bool :=
  match v with
  | VStr t => bool_decide (t = s)
  | VNum _ => false
  end.

(** [v / y] and [v * y] for a float [y]; a string operand raises. *)
Definition truediv (v : value) (y : float) : result value :=
  match v with
  | VNum x => Ok (VNum (x / y)%float)
  | VStr _ => Raise TypeError
  end.

Definition times (v : value) (y : float) : result value :=
  match v with
  | VNum x => Ok (VNum (x * y)%float)
  | VStr _ => Raise TypeError
  end.

(** [limit >= v] and [v > limit] and [limit > v] for a float [limit]. *)
Definition limit_ge (limit : float) (v : value) : result bool :=
  match v with
  | VNum x => Ok (x <=? limit)%float
  | VStr _ => Raise TypeError
  end.

Definition exceeds (v : value) (limit : float) : result bool :=
  match v with
  | VNum x => Ok (limit <? x)%float
  | VStr _ => Raise TypeError
  end.

Definition limit_gt (limit : float) (v : value) : result bool :=
  match v with
  | VNum x => Ok (x <? limit)%float
  | VStr _ => Raise TypeError
  end.

(** [a < b] between two stored values: numbers compare as floats, strings
    by code point, a number against a string raises. *)
Definition value_lt (a b : value) : result bool :=
  match a, b with
  | VNum x, VNum y => Ok (x <? y)%float
  | VStr s, VStr t => Ok (match String.compare s t with Lt => true | _ => false end)
  | _, _ => Raise TypeError
  end.

(** [min(l)]: the first element that no later element is below. *)
Fixpoint min_from (best : value) (l : list value) : result value :=
  match l with
  | [] => Ok best
  | x :: l' => b ← value_lt x best; min_from (if b : bool then x else best) l'
  end.

Definition py_min (l : list value) : result value :=
  match l with
  | [] => Raise ValueError
  | x :: l' => min_from x l'
  end.

(** ** Measurements *)

(** The string ['unavailable'] or a dictionary. *)
Inductive visibility_measurement : Type :=
| VisUnavailable
| VisDict (d : pydict).

(** The strings ['calm'] and ['unavailable'], or a dictionary. *)
Inductive wind_measurement : Type :=
| WindCalm
| WindUnavailable
| WindDict (d : pydict).

(** The strings ['clear'] and ['unavailable'], or a list of cloud layers. *)
Inductive ceiling_measurement : Type :=
| Clear
| CeilUnavailable
| Layers (l : list pydict).

(** A weather report: the three keys that the audit reads. *)
Record observation : Type := {
  visibility : visibility_measurement;
  wind : wind_measurement;
  sky : ceiling_measurement
}.

(** ** [bad_visibility] *)

Definition bad_visibility (visibility : visibility_measurement) (minimum : float)
  : result bool :=
  match visibility with
  | VisUnavailable => Ok true
  | VisDict d =>
      viz ← (if has_key d "minimum" then
               u ← getitem d "units";
               if value_is u "FT" then
                 x ← getitem d "minimum"; Some <$> truediv x 5280
               else if value_is u "SM" then
                 Some <$> getitem d "minimum"
               else Ok None
             else if has_key d "prevailing" then
               u ← getitem d "units";
               if value_is u "FT" then
                 x ← getitem d "prevailing"; Some <$> truediv x 5280
               else if value_is u "SM" then
                 Some <$> getitem d "prevailing"
               else Ok None
             else Ok None);
      match viz with
      | Some v => limit_ge minimum v
      | None => Raise (UnboundLocalError "viz")
      end
  end.

(** ** [bad_winds] *)

(** [1.94384]: the literal denotes the nearest binary64 value. *)
#[warnings="-inexact-float"]
Definition MPS_TO_KT : float := 1.94384%float.

Definition bad_winds (winds : wind_measurement) (maxwind maxcross : float)
  : result bool :=
  match winds with
  | WindCalm => Ok false
  | WindUnavailable => Ok true
  | WindDict d =>
      u ← getitem d "units";
      '(windz, crozz) ←
        (if value_is u "MPS" then
           c ← getitem d "crosswind";
           crozz ← times c MPS_TO_KT;
           windz ← (if has_key d "gusts" then
                      g ← getitem d "gusts"; Some <$> times g MPS_TO_KT
                    else if has_key d "speed" then
                      s ← getitem d "speed"; Some <$> times s MPS_TO_KT
                    else Ok None);
           Ok (windz, Some crozz)
         else if value_is u "KT" then
           crozz ← getitem d "crosswind";
           windz ← (if has_key d "gusts" then Some <$> getitem d "gusts"
                    else if has_key d "speed" then Some <$> getitem d "speed"
                    else Ok None);
           Ok (windz, Some crozz)
         else Ok (None, None));
      match windz with
      | None => Raise (UnboundLocalError "windz")
      | Some w =>
          over ← exceeds w maxwind;
          if over : bool then Ok true
          else match crozz with
               | None => Raise (UnboundLocalError "crozz")
               | Some c => exceeds c maxcross
               end
      end
  end.

(** ** [bad_ceiling] *)

(** One of the four loops of [bad_ceiling]: the heights, in order, of the
    layers whose type is [ty]. *)
Fixpoint heights_of_type (ty : string) (ceiling : list pydict)
  : result (list value) :=
  match ceiling with
  | [] => Ok []
  | layer :: rest =>
      t ← getitem layer "type";
      if value_is t ty then
        h ← getitem layer "height";
        hs ← heights_of_type ty rest;
        Ok (h :: hs)
      else heights_of_type ty rest
  end.

(** [if len(l) != 0: acc.append(min(l))] *)
Definition append_min (acc l : list value) : result (list value) :=
  match l with
  | [] => Ok acc
  | _ => m ← py_min l; Ok (acc ++ [m])
  end.

Definition bad_ceiling (ceiling : ceiling_measurement) (minimum : float)
  : result bool :=
  match ceiling with
  | Clear => Ok false
  | CeilUnavailable => Ok true
  | Layers layers =>
      scattered ← heights_of_type "scattered" layers;
      broken ← heights_of_type "broken" layers;
      overcast ← heights_of_type "overcast" layers;
      indef_ceil ← heights_of_type "indefinite ceiling" layers;
      (* [scattered] is rebound to its least height when it is not empty;
         either way it is not [None] in the test below. *)
      _ ← append_min [] scattered;
      comp_ceils ← append_min [] broken;
      comp_ceils ← append_min comp_ceils overcast;
      comp_ceils ← append_min comp_ceils indef_ceil;
      match comp_ceils with
      | [] => Ok false
      | _ => ceil ← py_min comp_ceils; limit_gt minimum ceil
      end
  end.

(** ** [get_weather_violation] *)

(** [minimums[i]] *)
Definition index {A : Type} (l : list A) (i : nat) : result A :=
  match l !! i with
  | Some a => Ok a
  | None => Raise IndexError
  end.

Definition get_weather_violation (weather : option observation)
    (minimums : list float) : result string :=
  match weather with
  | None => Ok "Unknown"
  | Some weather =>
      m1 ← index minimums 1;
      bv ← bad_visibility (visibility weather) m1;
      let b_v := if bv : bool then Some "Visibility" else None in
      m2 ← index minimums 2;
      m3 ← index minimums 3;
      bw ← bad_winds (wind weather) m2 m3;
      let b_w := if bw : bool then Some "Winds" else None in
      m0 ← index minimums 0;
      bc ← bad_ceiling (sky weather) m0;
      let b_c := if bc : bool then Some "Ceiling" else None in
      let baddies := omap id [b_v; b_w; b_c] in
      match baddies with
      | [] => Ok ""
      | [b] => Ok b
      | _ => Ok "Weather"
      end
  end.

(** ** Takeoff instants *)

(** A [datetime]: the civil fields and the UTC offset of its [tzinfo] in
    seconds ([None] for a naive instant). The class keeps every field in
    range, see [valid_datetime]. *)
Record datetime : Type := {
  year : N; month : N; day : N;
  hour : N; minute : N; second : N; microsecond : N;
  tzinfo : option Z
}.

Definition valid_datetime (d : datetime) : bool :=
  ((1 <=? year d) && (year d <=? 9999) &&
   (1 <=? month d) && (month d <=? 12) &&
   (1 <=? day d) && (day d <=? 31) &&
   (hour d <? 24) && (minute d <? 60) && (second d <? 60) &&
   (microsecond d <? 1000000))%N.

(** [a.tzinfo == b.tzinfo]: offsets compare by value. *)
Definition tzinfo_eqb (a b : option Z) : bool := bool_decide (a = b).

(** Comparison of two instants with equal offsets: the civil fields in
    order, as tuples. *)
Definition lex (c1 c2 : comparison) : comparison :=
  match c1 with
  | Eq => c2
  | _ => c1
  end.

Definition dt_compare (a b : datetime) : comparison :=
  lex (year a ?= year b)%N
 (lex (month a ?= month b)%N
 (lex (day a ?= day b)%N
 (lex (hour a ?= hour b)%N
 (lex (minute a ?= minute b)%N
 (lex (second a ?= second b)%N
      (microsecond a ?= microsecond b)%N))))).

(** [a > b] *)
Definition dt_gtb (a b : datetime) : bool :=
  match dt_compare a b with
  | Gt => true
  | _ => false
  end.

(** [a <= b] as a proposition on instants with equal offsets. *)
Definition dt_le (a b : datetime) : Prop := dt_compare a b ≠ Gt.

(** *** [isoformat] *)

Definition digit (n : N) : ascii := ascii_of_N (48 + n mod 10).

(** ["%0<width>d" % n] for [n] below [10 ^ width]. *)
Fixpoint zfill (width : nat) (n : N) : string :=
  match width with
  | 0 => ""
  | S w => zfill w (n / 10)%N +:+ String (digit n) ""
  end.

Definition format_offset (tz : option Z) : string :=
  match tz with
  | None => ""
  | Some off =>
      let sign := if (off <? 0)%Z then "-" else "+" in
      let a := Z.to_N (Z.abs off) in
      let hh := (a / 3600)%N in
      let mm := ((a mod 3600) / 60)%N in
      let ss := (a mod 60)%N in
      sign +:+ zfill 2 hh +:+ ":" +:+ zfill 2 mm +:+
      (if (ss =? 0)%N then "" else ":" +:+ zfill 2 ss)
  end.

Definition isoformat (d : datetime) : string :=
  zfill 4 (year d) +:+ "-" +:+ zfill 2 (month d) +:+ "-" +:+ zfill 2 (day d)
  +:+ "T" +:+
  zfill 2 (hour d) +:+ ":" +:+ zfill 2 (minute d) +:+ ":" +:+ zfill 2 (second d)
  +:+ (if (microsecond d =? 0)%N then "" else "." +:+ zfill 6 (microsecond d))
  +:+ format_offset (tzinfo d).

(** ** Traces of effects *)

Inductive event : Type :=
| ReadFile (path : string)
| WriteCsv (data : list (list string)) (filename : string)
| Print (line : string)
| TestAll.

Record io (A : Type) : Type := IO { trace : list event; outcome : result A }.
Arguments IO {A} trace outcome.
Arguments trace {A} _.
Arguments outcome {A} _.

#[global] Instance io_ret : MRet io := fun A a => IO [] (Ok a).
#[global] Instance io_bind : MBind io := fun A B f m =>
  match outcome m with
  | Ok a => IO (trace m ++ trace (f a)) (outcome (f a))
  | Raise e => IO (trace m) (Raise e)
  end.

(** A computation without effects. *)
Definition pure {A : Type} (r : result A) : io A := IO [] r.

(** [try: body  except: handler] with a bare [except]. *)
Definition try_except {A : Type} (body handler : io A) : io A :=
  match outcome body with
  | Ok _ => body
  | Raise _ => IO (trace body ++ trace handler) (outcome handler)
  end.

(** ** The modules [utils], [pilots] and [tests] *)

Class collaborators : Type := {
  Daycycle : Type;
  Student : Type;
  Certification : Type;
  (** [utils.str_to_time]; a timestamp that does not parse is a failure
      of the call or of the first use of what it returns. *)
  str_to_time : string → result datetime;
  (** [utils.read_json], at the sunrise table and at the weather log. *)
  read_json_daycycle : string → result Daycycle;
  read_json_weather : string → result (gmap string observation);
  read_csv : string → result (list (list string));
  (** Whether [utils.write_csv] returns. *)
  write_csv_result : list (list string) → string → result ();
  get_for_id : string → list (list string) → result Student;
  daytime : datetime → Daycycle → result bool;
  get_certification : datetime → Student → result Certification;
  get_minimums : Certification → string → bool → bool → bool →
                 list (list string) → result (list float);
  (** Whether [tests.test_all] returns. *)
  test_all_result : result ()
}.

(** ** [get_weather_report] *)

(** [a > b] on strings: by code point, a proper prefix is smaller. *)
Definition str_gtb (a b : string) : bool :=
  match String.compare a b with
  | Gt => true
  | _ => false
  end.

(** [max(l)]: the first element that no later element exceeds. *)
Fixpoint max_from (best : string) (l : list string) : string :=
  match l with
  | [] => best
  | x :: l' => max_from (if str_gtb x best then x else best) l'
  end.

Definition py_max (l : list string) : result string :=
  match l with
  | [] => Raise ValueError
  | x :: l' => Ok (max_from x l')
  end.

Section Resolver.
Context `{collaborators}.

(** The loop of the fallback path: the keys, in iteration order, whose
    instant has the offset of the takeoff and lies before it. The
    comparison [takeoff > key_dto] is reached only for equal offsets,
    where it compares the civil fields. *)
Fixpoint before_keys (takeoff : datetime) (keys : list string)
  : result (list string) :=
  match keys with
  | [] => Ok []
  | key :: rest =>
      key_dto ← str_to_time key;
      let keep := tzinfo_eqb (tzinfo takeoff) (tzinfo key_dto)
                  && dt_gtb takeoff key_dto in
      later ← before_keys takeoff rest;
      Ok (if keep then key :: later else later)
  end.

(** The keys of a dictionary are distinct, so the greatest of the kept
    keys does not depend on the order of the iteration. *)
Definition get_weather_report (takeoff : datetime)
    (weather : gmap string observation) : result (option observation) :=
  let iso_takeoff := isoformat takeoff in
  match weather !! iso_takeoff with
  | Some weather_report => Ok (Some weather_report)
  | None =>
      keys ← before_keys takeoff (map_to_list weather).*1;
      best_key ← py_max keys;
      if negb (String.length best_key =? 0) then
        match weather !! best_key with
        | Some report => Ok (Some report)
        | None => Raise (KeyError best_key)
        end
      else Ok None
  end.
End Resolver.

(** ** [list_weather_violations] *)

Definition DAYCYCLE : string := "daycycle.json".
Definition WEATHER : string := "weather.json".
Definition MINIMUMS : string := "minimums.csv".
Definition STUDENTS : string := "students.csv".
Definition LESSONS : string := "lessons.csv".

(** [os.path.join(a, b)] for a relative [b]. *)
Definition path_join (a b : string) : string :=
  if bool_decide (a = "") then b
  else if bool_decide (String.get (String.length a - 1) a = Some "/"%char)
       then a +:+ b
       else a +:+ "/" +:+ b.

Section Driver.
Context `{collaborators}.

Definition read {A : Type} (reader : string → result A) (path : string)
  : io A :=
  IO [ReadFile path] (reader path).

(** The body of the loop for one lesson. [vfr] is the binding that the
    previous iterations left (none on entry); the body returns the new
    binding and the violation label. *)
Definition lesson_violation (daycycle : Daycycle)
    (weather : gmap string observation)
    (minimums students : list (list string))
    (vfr : option bool) (line : list string)
  : result (option bool * string) :=
  stamp ← index line 3;
  takeoff ← str_to_time stamp;
  id ← index line 0;
  student ← get_for_id id students;
  cert ← get_certification takeoff student;
  instructor ← index line 2;
  let instructed := negb (bool_decide (instructor = "")) in
  filed ← index line 5;
  let vfr := if bool_decide (filed = "VFR") then Some true
             else if bool_decide (filed = "IFR") then Some false
             else vfr in
  area ← index line 6;
  rules ← match vfr with
          | Some v => Ok v
          | None => Raise (UnboundLocalError "vfr")
          end;
  is_day ← daytime takeoff daycycle;
  pilot_minimums ← get_minimums cert area instructed rules is_day minimums;
  weather_conditions ← get_weather_report takeoff weather;
  viola ← get_weather_violation weather_conditions pilot_minimums;
  Ok (vfr, viola).

(** The loop over the lessons. A lesson is a list of its own, so
    appending the label to it changes no other row. *)
Fixpoint lessons_loop (daycycle : Daycycle)
    (weather : gmap string observation)
    (minimums students : list (list string))
    (lessons : list (list string)) (vfr : option bool)
    (results : list (list string)) : result (list (list string)) :=
  match lessons with
  | [] => Ok results
  | line :: rest =>
      '(vfr, viola) ← lesson_violation daycycle weather minimums students
                        vfr line;
      lessons_loop daycycle weather minimums students rest vfr
        (if bool_decide (viola ≠ "") then results ++ [line ++ [viola]]
         else results)
  end.

(** The label of one lesson, when no binding of [vfr] is left over. *)
Definition record_label (daycycle : Daycycle)
    (weather : gmap string observation)
    (minimums students : list (list string)) (line : list string)
  : result string :=
  snd <$> lesson_violation daycycle weather minimums students None line.

Definition list_weather_violations (directory : string)
  : io (list (list string)) :=
  daycycle ← read read_json_daycycle (path_join directory DAYCYCLE);
  weather ← read read_json_weather (path_join directory WEATHER);
  minimums ← read read_csv (path_join directory MINIMUMS);
  students ← read read_csv (path_join directory STUDENTS);
  lessons ← read read_csv (path_join directory LESSONS);
  let lessons := drop 1 lessons in
  pure (lessons_loop daycycle weather minimums students lessons None []).

(** ** [app.py] *)

Definition write_csv (data : list (list string)) (filename : string)
  : io () :=
  IO [WriteCsv data filename] (write_csv_result data filename).

Definition print (line : string) : io () := IO [Print line] (Ok ()).

Definition test_all : io () := IO [TestAll] test_all_result.

Definition HEADER : list (list string) :=
  [["STUDENT"; "AIRPLANE"; "INSTRUCTOR"; "TAKEOFF"; "LANDING"; "FILED";
    "AREA"; "REASON"]].

(** The line that reports the number of violations. *)
Definition summary (num_vios : nat) : string :=
  if num_vios =? 1 then pretty num_vios +:+ " violation found."
  else if 1 <? num_vios then pretty num_vios +:+ " violations found."
  else "No violations found.".

(** An argument of [discover_violations]: [None], a string, or (as
    [execute] may pass) a list of strings. *)
Inductive argument : Type :=
| ArgNone
| ArgStr (s : string)
| ArgList (l : list string).

Definition discover_violations (directory output : argument) : io () :=
  vios ← match directory with
         | ArgStr directory => list_weather_violations directory
         | _ => pure (Raise TypeError)  (* the first [os.path.join] *)
         end;
  let num_vios := length vios in
  let output_data := HEADER ++ vios in
  let out_line := summary num_vios in
  let filename := match output with
                  | ArgNone => ArgStr "output.csv"
                  | _ => output
                  end in
  match filename with
  | ArgStr filename => write_csv output_data filename
  | _ => pure (Raise TypeError)  (* no file of that name can be opened *)
  end;;
  print out_line.

(** A call with positional arguments. Both parameters are required: a
    call with another number of arguments raises before the body
    runs. *)
Definition call_discover_violations (actuals : list argument) : io () :=
  match actuals with
  | [directory; output] => discover_violations directory output
  | _ => pure (Raise TypeError)
  end.

Definition USAGE : string := "Usage: python auditor dataset [output.csv]".

Definition execute (args : list string) : io () :=
  if bool_decide (length args = 0 ∨ 2 < length args) then print USAGE
  else if bool_decide (length args = 2 ∧ args !! 1 = Some "--test") then
    print USAGE
  else if bool_decide (length args = 2 ∧ args !! 0 = Some "--test") then
    print USAGE
  else if bool_decide (length args = 1 ∧ args !! 0 = Some "--test") then
    test_all
  else
    try_except
      (if bool_decide (length args = 1) then
         call_discover_violations [ArgList args]
       else if bool_decide (length args = 2) then
         match args with
         | [a0; a1] => call_discover_violations [ArgStr a0; ArgStr a1]
         | _ => mret ()
         end
       else mret ())
      (print USAGE).
(** ** [__main__.py] *)

(** A string of the script is kept as the bytes of its UTF-8 encoding. A
    byte [10xxxxxx] continues the character that the bytes before it
    began. *)
Definition is_continuation (c : ascii) : bool :=
  ((128 <=? N_of_ascii c) && (N_of_ascii c <? 192))%N.

(** The characters of a string, each as a string of its own: what
    [len(args)] counts and [args[i]] selects when [args] is a string. *)
Fixpoint chars (s : string) : list string :=
  match s with
  | EmptyString => []
  | String c s' =>
      let rest := chars s' in
      match s' with
      | String b _ =>
          if is_continuation b then
            match rest with
            | first :: others => String c first :: others
            | [] => [String c ""]
            end
          else String c "" :: rest
      | EmptyString => String c "" :: rest
      end
  end.

(** [execute] when its argument is a string instead of a list: the
    length is the number of characters, an item is a string of one
    character. *)
Definition execute_str (args : string) : io () :=
  if bool_decide (length (chars args) = 0 ∨ 2 < length (chars args)) then
    print USAGE
  else if bool_decide (length (chars args) = 2
                       ∧ chars args !! 1 = Some "--test") then
    print USAGE
  else if bool_decide (length (chars args) = 2
                       ∧ chars args !! 0 = Some "--test") then
    print USAGE
  else if bool_decide (length (chars args) = 1
                       ∧ chars args !! 0 = Some "--test") then
    test_all
  else
    try_except
      (if bool_decide (length (chars args) = 1) then
         call_discover_violations [ArgStr args]
       else if bool_decide (length (chars args) = 2) then
         match chars args with
         | [a0; a1] => call_discover_violations [ArgStr a0; ArgStr a1]
         | _ => mret ()
         end
       else mret ())
      (print USAGE).

(** The script: [arguments = sys.argv[1:]] and [app.execute( *arguments)].
    The list is unpacked, so [execute], which has one parameter, is
    called with as many arguments as the command line has; any number
    other than one raises before its body runs. *)
Definition main (argv : list string) : io () :=
  let arguments := drop 1 argv in
  match arguments with
  | [args] => execute_str args
  | _ => pure (Raise TypeError)
  end.
End Driver.

(** ** The vocabulary of the specification *)

(** The governing distance: the [minimum] field if present, else the
    [prevailing] field. *)
Definition governing_distance (d : pydict) : option value :=
  match d !! "minimum" with
  | Some v => Some v
  | None => d !! "prevailing"
  end.

Definition to_statute_miles (units : string) (x : float) : float :=
  if bool_decide (units = "FT") then (x / 5280)%float else x.

(** The wind value: the gusts if present, else the speed. *)
Definition wind_value (d : pydict) : option value :=
  match d !! "gusts" with
  | Some v => Some v
  | None => d !! "speed"
  end.

#[warnings="-inexact-float"]
Definition to_knots (units : string) (x : float) : float :=
  if bool_decide (units = "MPS") then (x * 1.94384)%float else x.

(** The cover types that constitute a ceiling. *)
Definition is_ceiling_type (t : value) : bool :=
  value_is t "broken" || value_is t "overcast"
  || value_is t "indefinite ceiling".

(** A layer that constitutes a ceiling at height [h]. *)
Definition ceiling_at (layer : pydict) (h : float) : Prop :=
  (∃ t, layer !! "type" = Some t ∧ is_ceiling_type t = true)
  ∧ layer !! "height" = Some (VNum h).

(** A cloud layer with its required keys: some type and a height that is
    a number. *)
Definition valid_layer (layer : pydict) : Prop :=
  (∃ t, layer !! "type" = Some (VStr t))
  ∧ ∃ h, layer !! "height" = Some (VNum h) ∧ is_nan h = false.

(** The label for the verdicts of the three checks, taken in the order
    visibility, winds, ceiling. *)
Definition label_of (visibility winds ceiling : bool) : string :=
  match visibility, winds, ceiling with
  | false, false, false => ""
  | true, false, false => "Visibility"
  | false, true, false => "Winds"
  | false, false, true => "Ceiling"
  | _, _, _ => "Weather"
  end.

(** A key of the log that is the ISO representation of the instant it
    denotes. *)
Definition iso_key `{collaborators} (key : string) : Prop :=
  ∃ d, str_to_time key = Ok d ∧ valid_datetime d = true ∧ isoformat d = key.

(** An entry of the log that the fallback path may use: its instant has
    the offset of the takeoff and lies before it. *)
Definition prior_entry `{collaborators} (takeoff : datetime)
    (weather : gmap string observation)
    (key : string) (d : datetime) (report : observation) : Prop :=
  weather !! key = Some report ∧ str_to_time key = Ok d
  ∧ tzinfo d = tzinfo takeoff ∧ dt_compare d takeoff = Lt.

(** A layer that a loop for [ty] cannot read: it has no type, or it has
    the type [ty] and no height. *)
Definition unreadable_for (ty : string) (layer : pydict) : Prop :=
  layer !! "type" = None
  ∨ (layer !! "type" = Some (VStr ty) ∧ layer !! "height" = None).


(** ** A small data set *)

Definition digit_value (c : ascii) : option N :=
  let n := N_of_ascii c in
  if ((48 <=? n) && (n <=? 57))%N then Some (n - 48)%N else None.

Fixpoint number_from (acc : N) (s : string) : option N :=
  match s with
  | EmptyString => Some acc
  | String c s' => v ← digit_value c; number_from (10 * acc + v)%N s'
  end.

Definition field (s : string) (start len : nat) : option N :=
  number_from 0 (String.substring start len s).

(** Modelled from the spec: [utils.str_to_time] is not among the audited
    sources; the specification describes the parser of timestamps as the
    inverse of the ISO formatting. This parser reads the fixed-width form
    [YYYY-MM-DDTHH:MM:SS] with an optional offset [+HH:MM] or [-HH:MM]
    and accepts a string only if formatting the instant gives it back. *)
Definition parse_iso (s : string) : option datetime :=
  y ← field s 0 4; mo ← field s 5 2; d ← field s 8 2;
  h ← field s 11 2; mi ← field s 14 2; se ← field s 17 2;
  tz ← (if String.length s =? 19 then Some None
        else
          oh ← field s 20 2; om ← field s 23 2;
          let secs := Z.of_N (oh * 3600 + om * 60) in
          match String.get 19 s with
          | Some "+"%char => Some (Some secs)
          | Some "-"%char => Some (Some (- secs)%Z)
          | _ => None
          end);
  let dt := {| year := y; month := mo; day := d;
               hour := h; minute := mi; second := se; microsecond := 0;
               tzinfo := tz |} in
  if valid_datetime dt && String.eqb (isoformat dt) s then Some dt else None.

Definition sample_report_0700 : observation := {|
  visibility := VisDict {[ "prevailing" := VNum 10; "units" := VStr "SM" ]};
  wind := WindDict {[ "speed" := VNum 13; "crosswind" := VNum 2;
                      "units" := VStr "KT" ]};
  sky := Layers [ {[ "type" := VStr "overcast"; "height" := VNum 700;
                     "units" := VStr "FT" ]} ]
|}.

Definition sample_report_0900 : observation := {|
  visibility := VisDict {[ "prevailing" := VNum 10; "units" := VStr "SM" ]};
  wind := WindCalm;
  sky := Clear
|}.

Definition sample_report_1000 : observation := {|
  visibility := VisDict {[ "prevailing" := VNum 21120; "minimum" := VNum 15840;
                           "units" := VStr "FT" ]};
  wind := WindDict {[ "speed" := VNum 12; "crosswind" := VNum 10;
                      "gusts" := VNum 18; "units" := VStr "KT" ]};
  sky := Layers [ {[ "type" := VStr "scattered"; "height" := VNum 700 ]};
                  {[ "type" := VStr "broken"; "height" := VNum 900 ]};
                  {[ "type" := VStr "overcast"; "height" := VNum 1200 ]} ]
|}.

Definition sample_weather : gmap string observation :=
  {[ "2017-04-21T07:00:00-04:00" := sample_report_0700;
     "2017-04-21T09:00:00-04:00" := sample_report_0900;
     "2017-04-21T10:00:00-04:00" := sample_report_1000;
     "2017-04-21T11:00:00-05:00" := sample_report_0900 ]}.

(** The log of the resolver example: one report, at 07:00. *)
Definition single_weather : gmap string observation :=
  {[ "2017-04-21T07:00:00-04:00" := sample_report_0700 ]}.

Definition takeoff_at (h mi : N) : datetime :=
  {| year := 2017; month := 4; day := 21;
     hour := h; minute := mi; second := 0; microsecond := 0;
     tzinfo := Some (-14400)%Z |}.

Definition sample_lessons : list (list string) :=
  [ ["STUDENT"; "AIRPLANE"; "INSTRUCTOR"; "TAKEOFF"; "LANDING"; "FILED"; "AREA"];
    ["S00687"; "548QR"; "I061"; "2017-04-21T07:00:00-04:00";
     "2017-04-21T08:00:00-04:00"; "VFR"; "Pattern"];
    ["S00758"; "548QR"; ""; "2017-04-21T09:30:00-04:00";
     "2017-04-21T10:30:00-04:00"; "VFR"; "Pattern"];
    ["S00971"; "426JQ"; "I072"; "2017-04-21T10:00:00-04:00";
     "2017-04-21T12:00:00-04:00"; "IFR"; "Practice Area"] ].

Definition sample_minimums : list float :=
  [1000%float; 3%float; 15%float; 8%float].

Definition sample_read {A : Type} (name : string) (content : A)
    (path : string) : result A :=
  if bool_decide (path = path_join "KITH-2017" name) then Ok content
  else Raise (ExternalError "no such file").

(** The data set [KITH-2017] and no other directory. *)
Definition sample : collaborators := {|
  Daycycle := ();
  Student := ();
  Certification := ();
  str_to_time s :=
    match parse_iso s with
    | Some d => Ok d
    | None => Raise (ExternalError "str_to_time")
    end;
  read_json_daycycle := sample_read DAYCYCLE ();
  read_json_weather := sample_read WEATHER sample_weather;
  read_csv path :=
    if bool_decide (path = path_join "KITH-2017" LESSONS) then Ok sample_lessons
    else if bool_decide (path = path_join "KITH-2017" MINIMUMS) then Ok []
    else if bool_decide (path = path_join "KITH-2017" STUDENTS) then Ok []
    else Raise (ExternalError "no such file");
  write_csv_result _ _ := Ok ();
  get_for_id _ _ := Ok ();
  daytime _ _ := Ok true;
  get_certification _ _ := Ok ();
  get_minimums _ _ _ _ _ _ := Ok sample_minimums;
  test_all_result := Ok ()
|}.


(** The data set [KITH-2017] with another table of lessons and another
    outcome of the writer. *)
Definition sample_with (lessons : list (list string)) (written : result ())
  : collaborators := {|
  Daycycle := Daycycle (collaborators := sample);
  Student := Student (collaborators := sample);
  Certification := Certification (collaborators := sample);
  str_to_time := str_to_time (collaborators := sample);
  read_json_daycycle := read_json_daycycle (collaborators := sample);
  read_json_weather := read_json_weather (collaborators := sample);
  read_csv path :=
    if bool_decide (path = path_join "KITH-2017" LESSONS) then Ok lessons
    else read_csv (collaborators := sample) path;
  write_csv_result _ _ := written;
  get_for_id := get_for_id (collaborators := sample);
  daytime := daytime (collaborators := sample);
  get_certification := get_certification (collaborators := sample);
  get_minimums := get_minimums (collaborators := sample);
  test_all_result := Ok ()
|}.

(** The data set on a medium that cannot be written. *)
Definition sample_read_only : collaborators :=
  sample_with sample_lessons (Raise (ExternalError "read-only")).

(** A table of lessons whose second lesson lacks its last fields. *)
Definition short_lessons : list (list string) :=
  [ ["STUDENT"; "AIRPLANE"; "INSTRUCTOR"; "TAKEOFF"; "LANDING"; "FILED"; "AREA"];
    ["S00687"; "548QR"; "I061"; "2017-04-21T07:00:00-04:00";
     "2017-04-21T08:00:00-04:00"; "VFR"; "Pattern"];
    ["S00758"; "548QR"; ""; "2017-04-21T09:30:00-04:00"] ].

(** Modelled from the spec: [utils.str_to_time] is not among the audited
    sources; the specification calls the keys of the log ISO-8601
    timestamp strings. ISO 8601 writes an instant in the extended form,
    which [parse_iso] reads, or in the basic form
    [YYYYMMDDTHHMMSS] with an optional offset [+HHMM] or [-HHMM], which
    this parser reads. *)
Definition parse_basic (s : string) : option datetime :=
  y ← field s 0 4; mo ← field s 4 2; d ← field s 6 2;
  h ← field s 9 2; mi ← field s 11 2; se ← field s 13 2;
  tz ← (if String.length s =? 15 then Some None
        else if String.length s =? 20 then
          oh ← field s 16 2; om ← field s 18 2;
          let secs := Z.of_N (oh * 3600 + om * 60) in
          match String.get 15 s with
          | Some "+"%char => Some (Some secs)
          | Some "-"%char => Some (Some (- secs)%Z)
          | _ => None
          end
        else None);
  let dt := {| year := y; month := mo; day := d;
               hour := h; minute := mi; second := se; microsecond := 0;
               tzinfo := tz |} in
  if valid_datetime dt
     && bool_decide (String.get 8 s = Some "T"%char) then Some dt else None.

(** The data set [KITH-2017] read by a parser of both ISO-8601 forms. *)
Definition sample_both_forms : collaborators := {|
  Daycycle := Daycycle (collaborators := sample);
  Student := Student (collaborators := sample);
  Certification := Certification (collaborators := sample);
  str_to_time s :=
    match parse_iso s, parse_basic s with
    | Some d, _ => Ok d
    | None, Some d => Ok d
    | None, None => Raise (ExternalError "str_to_time")
    end;
  read_json_daycycle := read_json_daycycle (collaborators := sample);
  read_json_weather := read_json_weather (collaborators := sample);
  read_csv := read_csv (collaborators := sample);
  write_csv_result := write_csv_result (collaborators := sample);
  get_for_id := get_for_id (collaborators := sample);
  daytime := daytime (collaborators := sample);
  get_certification := get_certification (collaborators := sample);
  get_minimums := get_minimums (collaborators := sample);
  test_all_result := Ok ()
|}.

(** A log whose keys are ISO-8601 timestamps of two forms: the report of
    08:00 under the basic form, the report of 09:00 under the extended
    form. *)
Definition mixed_weather : gmap string observation :=
  {[ "20170421T080000-0400" := sample_report_0700;
     "2017-04-21T09:00:00-04:00" := sample_report_0900 ]}.

(** A key of the log that is a timestamp: a string that is not empty and
    that the parser reads. *)
Definition timestamp_key `{collaborators} (key : string) : Prop :=
  key ≠ "" ∧ ∃ d, str_to_time key = Ok d.

(** The byte [c] lies between [lo] and [hi]. *)
Definition in_range (lo hi : N) (c : ascii) : bool :=
  ((lo <=? N_of_ascii c) && (N_of_ascii c <=? hi))%N.

(** The bytes are the UTF-8 encoding of a text (RFC 3629): one byte below
    128, or a lead byte followed by one, two or three continuation bytes,
    without overlong forms, surrogates or code points above [10FFFF]. *)
Fixpoint utf8 (s : string) : bool :=
  match s with
  | EmptyString => true
  | String c0 s1 =>
      if in_range 0 127 c0 then utf8 s1
      else
        match s1 with
        | String c1 s2 =>
            if in_range 194 223 c0 && in_range 128 191 c1 then utf8 s2
            else
              match s2 with
              | String c2 s3 =>
                  if ((in_range 224 224 c0 && in_range 160 191 c1)
                      || (in_range 225 236 c0 && in_range 128 191 c1)
                      || (in_range 237 237 c0 && in_range 128 159 c1)
                      || (in_range 238 239 c0 && in_range 128 191 c1))
                     && in_range 128 191 c2
                  then utf8 s3
                  else
                    match s3 with
                    | String c3 s4 =>
                        ((in_range 240 240 c0 && in_range 144 191 c1)
                         || (in_range 241 243 c0 && in_range 128 191 c1)
                         || (in_range 244 244 c0 && in_range 128 143 c1))
                        && in_range 128 191 c2 && in_range 128 191 c3
                        && utf8 s4
                    | EmptyString => false
                    end
              | EmptyString => false
              end
        | EmptyString => false
        end
  end.

(** The exception, if any, that the read of the file number [i] of a
    data set raises. *)
Definition read_failure `{collaborators} (directory : string) (i : nat)
  : option exn :=
  let failure {A : Type} (r : result A) : option exn :=
    match r with
    | Ok _ => None
    | Raise e => Some e
    end in
  match i with
  | 0 => failure (read_json_daycycle (path_join directory DAYCYCLE))
  | 1 => failure (read_json_weather (path_join directory WEATHER))
  | 2 => failure (read_csv (path_join directory MINIMUMS))
  | 3 => failure (read_csv (path_join directory STUDENTS))
  | 4 => failure (read_csv (path_join directory LESSONS))
  | _ => None
  end.

(** The five files of a data set, in the order in which they are read. *)
Definition dataset_files (directory : string) : list string :=
  path_join directory <$> [DAYCYCLE; WEATHER; MINIMUMS; STUDENTS; LESSONS].

(** ** The order of binary64 values *)

(** A key whose lexicographic order is the order of the values that are
    not NaN: the class (infinities outermost, zeros in the middle), then
    exponent and mantissa, negated below zero. *)
Definition sf_key (f : spec_float) : Z * Z * Z :=
  match f with
  | S754_zero _ => (0, 0, 0)%Z
  | S754_infinity s => (if s then (-2) else 2, 0, 0)%Z
  | S754_nan => (3, 0, 0)%Z
  | S754_finite s m e =>
      if s then (-1, - e, - Z.pos m)%Z else (1, e, Z.pos m)%Z
  end.

Definition key_lt (a b : Z * Z * Z) : Prop :=
  (a.1.1 < b.1.1 ∨ (a.1.1 = b.1.1 ∧
     (a.1.2 < b.1.2 ∨ (a.1.2 = b.1.2 ∧ a.2 < b.2))))%Z.

Definition key_le (a b : Z * Z * Z) : Prop := key_lt a b ∨ a = b.

Definition float_key (x : float) : Z * Z * Z := sf_key (Prim2SF x).

(** [m] is a least element of [l]. *)
Definition least_of (m : float) (l : list float) : Prop :=
  m ∈ l ∧ ∀ y, y ∈ l → key_le (float_key m) (float_key y).

(** The heights, as numbers, of the layers of type [ty]. *)
Definition layer_has_type (ty : string) (layer : pydict) : bool :=
  match layer !! "type" with
  | Some t => value_is t ty
  | None => false
  end.

Definition layer_height (layer : pydict) : option float :=
  match layer !! "height" with
  | Some (VNum h) => Some h
  | _ => None
  end.

Definition heights (ty : string) (layers : list pydict) : list float :=
  omap layer_height (filter (λ layer, layer_has_type ty layer = true) layers).

(** * Properties *)

(** ** Comparison of binary64 values *)

Lemma SFcompare_Eq_sym (a b : spec_float) :
  SFcompare a b = Some Eq → SFcompare b a = Some Eq.
Proof.
  destruct a as [sa|sa| |sa ma ea], b as [sb|sb| |sb mb eb]; simpl;
    try discriminate; try reflexivity;
    try (destruct sa; discriminate); try (destruct sb; discriminate);
    try (destruct sa, sb; (discriminate || reflexivity)).
  change (PosDef.Pos.compare_cont Eq ma mb) with (Pos.compare ma mb).
  change (PosDef.Pos.compare_cont Eq mb ma) with (Pos.compare mb ma).
  destruct sa, sb; try discriminate;
    destruct (Z.compare_spec ea eb) as [->| |]; try discriminate;
    rewrite Z.compare_refl;
    destruct (Pos.compare_spec ma mb) as [->| |]; try discriminate;
    rewrite Pos.compare_refl; reflexivity.
Qed.

Lemma float_eqb_leb (x y : float) :
  (x =? y)%float = true → (y <=? x)%float = true.
Proof.
  rewrite FloatAxioms.eqb_spec, leb_spec. unfold SFeqb, SFleb.
  destruct (SFcompare (Prim2SF x) (Prim2SF y)) as [[]|] eqn:E; try discriminate.
  intros _. by rewrite (SFcompare_Eq_sym _ _ E).
Qed.

Lemma float_eqb_not_ltb (x y : float) :
  (x =? y)%float = true → (y <? x)%float = false.
Proof.
  rewrite FloatAxioms.eqb_spec, ltb_spec. unfold SFeqb, SFltb.
  destruct (SFcompare (Prim2SF x) (Prim2SF y)) as [[]|] eqn:E; try discriminate.
  intros _. by rewrite (SFcompare_Eq_sym _ _ E).
Qed.

Lemma SFcompare_key (a b : spec_float) :
  a ≠ S754_nan → b ≠ S754_nan →
  ∃ c, SFcompare a b = Some c
       ∧ (c = Lt ↔ key_lt (sf_key a) (sf_key b))
       ∧ (c = Eq ↔ sf_key a = sf_key b).
Proof.
  intros Ha Hb. unfold key_lt.
  destruct a as [sa|sa| |sa ma ea], b as [sb|sb| |sb mb eb];
    try congruence; simpl.
  1-8: try destruct sa; try destruct sb; eexists; (split; [reflexivity|]);
       simpl; split; split; intros; try discriminate; try lia; try reflexivity.
  change (PosDef.Pos.compare_cont Eq ma mb) with (Pos.compare ma mb).
  destruct sa, sb; eexists; (split; [reflexivity|]); simpl;
    destruct (Z.compare_spec ea eb); try destruct (Pos.compare_spec ma mb);
    simpl; split; split; intros; try discriminate; try lia; try reflexivity;
    try (subst; reflexivity); try (exfalso; inversion H1; lia);
    try (exfalso; inversion H0; lia).
Qed.

Lemma float_not_nan (x : float) : is_nan x = false → Prim2SF x ≠ S754_nan.
Proof.
  unfold is_nan. rewrite FloatAxioms.eqb_spec. unfold SFeqb.
  intros H E. rewrite E in H. discriminate.
Qed.

Lemma float_ltb_key (x y : float) :
  is_nan x = false → is_nan y = false →
  (x <? y)%float = true ↔ key_lt (float_key x) (float_key y).
Proof.
  intros Hx%float_not_nan Hy%float_not_nan.
  rewrite ltb_spec. unfold SFltb, float_key.
  destruct (SFcompare_key _ _ Hx Hy) as (c & -> & Hlt & _).
  rewrite <- Hlt. destruct c; split; congruence.
Qed.

Lemma float_leb_key (x y : float) :
  is_nan x = false → is_nan y = false →
  (x <=? y)%float = true ↔ key_le (float_key x) (float_key y).
Proof.
  intros Hx%float_not_nan Hy%float_not_nan.
  rewrite leb_spec. unfold SFleb, float_key, key_le.
  destruct (SFcompare_key _ _ Hx Hy) as (c & -> & Hlt & Heq).
  rewrite <- Hlt, <- Heq. destruct c; split; intros; try tauto; try congruence.
  destruct H; congruence.
Qed.

Lemma key_le_refl (a : Z * Z * Z) : key_le a a.
Proof. by right. Qed.

Lemma key_le_trans (a b c : Z * Z * Z) : key_le a b → key_le b c → key_le a c.
Proof.
  unfold key_le, key_lt. intros [H1 | ->] [H2 | ->]; auto.
  left. lia.
Qed.

Lemma key_lt_le (a b : Z * Z * Z) : key_lt a b → key_le a b.
Proof. by left. Qed.

Lemma key_not_lt_le (a b : Z * Z * Z) : ¬ key_lt a b → key_le b a.
Proof.
  unfold key_le, key_lt. intros H.
  destruct a as [[a1 a2] a3], b as [[b1 b2] b3]; simpl in *.
  destruct (decide (a1 = b1 ∧ a2 = b2 ∧ a3 = b3)) as [(-> & -> & ->)|Hne];
    [by right | left; lia].
Qed.

(** ** Dictionaries *)

(** Equality tests between string literals are evaluated. *)
Ltac decide_literals :=
  repeat match goal with
  | |- context [bool_decide (?a = ?b)] =>
      let v := eval vm_compute in (bool_decide (a = b)) in
      progress change (bool_decide (a = b)) with v
  end.

Lemma has_key_Some (d : pydict) (k : string) (v : value) :
  d !! k = Some v → has_key d k = true.
Proof. intros E. unfold has_key. rewrite E. by apply bool_decide_eq_true. Qed.

Lemma has_key_None (d : pydict) (k : string) :
  d !! k = None → has_key d k = false.
Proof.
  intros E. unfold has_key. rewrite E. apply bool_decide_eq_false.
  by intros [v ?].
Qed.

Lemma getitem_Some (d : pydict) (k : string) (v : value) :
  d !! k = Some v → getitem d k = Ok v.
Proof. intros E. unfold getitem. by rewrite E. Qed.

Lemma getitem_None (d : pydict) (k : string) :
  d !! k = None → getitem d k = Raise (KeyError k).
Proof. intros E. unfold getitem. by rewrite E. Qed.

(** ** The visibility check *)

(** C3. [bad_visibility] answers [True] for ['unavailable']. For a
    dictionary whose units are ['FT'] or ['SM'] it takes the [minimum]
    field if present and the [prevailing] field otherwise, converts it to
    statute miles (feet divided by 5280, miles unchanged) and answers
    whether the limit is at least that value; a limit equal to the
    converted value is a violation. *)
Theorem bad_visibility_spec (d : pydict) (units : string) (x minimum_sm : float) :
  governing_distance d = Some (VNum x) →
  d !! "units" = Some (VStr units) →
  units = "FT" ∨ units = "SM" →
  bad_visibility VisUnavailable minimum_sm = Ok true
  ∧ bad_visibility (VisDict d) minimum_sm
    = Ok (to_statute_miles units x <=? minimum_sm)%float
  ∧ ((minimum_sm =? to_statute_miles units x)%float = true →
     bad_visibility (VisDict d) minimum_sm = Ok true).
Proof.
  intros Hgov Hunits Hu.
  assert (Hmain : bad_visibility (VisDict d) minimum_sm
                  = Ok (to_statute_miles units x <=? minimum_sm)%float).
  { unfold bad_visibility, governing_distance in *.
    destruct (d !! "minimum") as [v|] eqn:Emin.
    - injection Hgov as ->.
      rewrite (has_key_Some _ _ _ Emin), (getitem_Some _ _ _ Hunits),
        (getitem_Some _ _ _ Emin).
      destruct Hu as [-> | ->]; reflexivity.
    - rewrite (has_key_None _ _ Emin), (has_key_Some _ _ _ Hgov),
        (getitem_Some _ _ _ Hunits), (getitem_Some _ _ _ Hgov).
      destruct Hu as [-> | ->]; reflexivity. }
  split; [reflexivity | split; [exact Hmain |]].
  intros Heq. rewrite Hmain. f_equal. by apply float_eqb_leb.
Qed.

Lemma bad_visibility_spec_witness :
  let d : pydict := {[ "prevailing" := VNum 21120; "minimum" := VNum 1400;
                       "maximum" := VNum 21120; "units" := VStr "FT" ]} in
  bad_visibility VisUnavailable 1 = Ok true
  ∧ bad_visibility (VisDict d) 1 = Ok (to_statute_miles "FT" 1400 <=? 1)%float
  ∧ ((1 =? to_statute_miles "FT" 1400)%float = true →
     bad_visibility (VisDict d) 1 = Ok true).
Proof.
  intros d. apply (bad_visibility_spec d "FT" 1400 1).
  - vm_compute. reflexivity.
  - vm_compute. reflexivity.
  - left. reflexivity.
Defined.

(** ** The wind check *)

Lemma bad_winds_dict (d : pydict) (units : string) (w c maxwind maxcross : float) :
  d !! "units" = Some (VStr units) →
  units = "KT" ∨ units = "MPS" →
  wind_value d = Some (VNum w) →
  d !! "crosswind" = Some (VNum c) →
  bad_winds (WindDict d) maxwind maxcross
  = Ok ((maxwind <? to_knots units w) || (maxcross <? to_knots units c))%float.
Proof.
  intros Hunits Hu Hwind Hcross.
  unfold bad_winds, wind_value in *.
  rewrite (getitem_Some _ _ _ Hunits), (getitem_Some _ _ _ Hcross).
  destruct (d !! "gusts") as [g|] eqn:Egusts.
  - injection Hwind as ->.
    rewrite (has_key_Some _ _ _ Egusts), (getitem_Some _ _ _ Egusts).
    destruct Hu as [-> | ->]; unfold to_knots; cbn; decide_literals; cbn;
      destruct (maxwind <? _)%float; reflexivity.
  - rewrite (has_key_None _ _ Egusts), (has_key_Some _ _ _ Hwind),
      (getitem_Some _ _ _ Hwind).
    destruct Hu as [-> | ->]; unfold to_knots; cbn; decide_literals; cbn;
      destruct (maxwind <? _)%float; reflexivity.
Qed.

(** C4. [bad_winds] answers [False] for ['calm'] and [True] for
    ['unavailable']. For a dictionary with units ['KT'] or ['MPS'] and a
    crosswind, the wind value is the gusts if present and the speed
    otherwise; both it and the crosswind are multiplied by 1.94384 when
    the units are ['MPS']; the answer is whether the wind value exceeds
    [max_wind_kt] or the crosswind exceeds [max_crosswind_kt]. A value
    equal to its limit does not count. *)
Theorem bad_winds_spec (d : pydict) (units : string)
    (w c max_wind_kt max_crosswind_kt : float) :
  d !! "units" = Some (VStr units) →
  units = "KT" ∨ units = "MPS" →
  wind_value d = Some (VNum w) →
  d !! "crosswind" = Some (VNum c) →
  bad_winds WindCalm max_wind_kt max_crosswind_kt = Ok false
  ∧ bad_winds WindUnavailable max_wind_kt max_crosswind_kt = Ok true
  ∧ bad_winds (WindDict d) max_wind_kt max_crosswind_kt
    = Ok ((max_wind_kt <? to_knots units w)
          || (max_crosswind_kt <? to_knots units c))%float
  ∧ ((to_knots units w =? max_wind_kt)%float = true →
     bad_winds (WindDict d) max_wind_kt max_crosswind_kt
     = Ok (max_crosswind_kt <? to_knots units c)%float)
  ∧ ((to_knots units c =? max_crosswind_kt)%float = true →
     bad_winds (WindDict d) max_wind_kt max_crosswind_kt
     = Ok (max_wind_kt <? to_knots units w)%float).
Proof.
  intros Hunits Hu Hwind Hcross.
  pose proof (bad_winds_dict d units w c max_wind_kt max_crosswind_kt
                Hunits Hu Hwind Hcross) as Hmain.
  repeat split; try reflexivity; try exact Hmain.
  - intros Heq. rewrite Hmain, (float_eqb_not_ltb _ _ Heq). reflexivity.
  - intros Heq. rewrite Hmain, (float_eqb_not_ltb _ _ Heq).
    by rewrite orb_false_r.
Qed.

Lemma bad_winds_spec_witness :
  let d : pydict := {[ "speed" := VNum 12; "crosswind" := VNum 10;
                       "gusts" := VNum 18; "units" := VStr "MPS" ]} in
  bad_winds WindCalm 20 10 = Ok false
  ∧ bad_winds WindUnavailable 20 10 = Ok true
  ∧ bad_winds (WindDict d) 20 10
    = Ok ((20 <? to_knots "MPS" 18) || (10 <? to_knots "MPS" 10))%float
  ∧ ((to_knots "MPS" 18 =? 20)%float = true →
     bad_winds (WindDict d) 20 10 = Ok (10 <? to_knots "MPS" 10)%float)
  ∧ ((to_knots "MPS" 10 =? 10)%float = true →
     bad_winds (WindDict d) 20 10 = Ok (20 <? to_knots "MPS" 18)%float).
Proof.
  intros d. apply (bad_winds_spec d "MPS" 18 10 20 10).
  - vm_compute. reflexivity.
  - right. reflexivity.
  - vm_compute. reflexivity.
  - vm_compute. reflexivity.
Defined.

(** C9. A wind dictionary without the key ['crosswind'] never makes
    [bad_winds] return: with units ['KT'] or ['MPS'] the read of the
    crosswind raises [KeyError]. *)
Theorem bad_winds_without_crosswind (d : pydict) (maxwind maxcross : float) :
  d !! "crosswind" = None →
  (∀ b, bad_winds (WindDict d) maxwind maxcross ≠ Ok b)
  ∧ (∀ units, d !! "units" = Some (VStr units) →
       units = "KT" ∨ units = "MPS" →
       bad_winds (WindDict d) maxwind maxcross = Raise (KeyError "crosswind")).
Proof.
  intros Hcross. split.
  - intros b. unfold bad_winds.
    rewrite (getitem_None _ _ Hcross).
    destruct (getitem d "units") as [u|e]; [|discriminate]. cbn.
    destruct (value_is u "MPS"); [discriminate|].
    destruct (value_is u "KT"); discriminate.
  - intros units Hunits Hu. unfold bad_winds.
    rewrite (getitem_Some _ _ _ Hunits), (getitem_None _ _ Hcross).
    destruct Hu as [-> | ->]; reflexivity.
Qed.

Lemma bad_winds_without_crosswind_witness :
  let d : pydict := {[ "speed" := VNum 12; "units" := VStr "KT" ]} in
  (∀ b, bad_winds (WindDict d) 20 10 ≠ Ok b)
  ∧ (∀ units, d !! "units" = Some (VStr units) →
       units = "KT" ∨ units = "MPS" →
       bad_winds (WindDict d) 20 10 = Raise (KeyError "crosswind")).
Proof.
  intros d. apply (bad_winds_without_crosswind d 20 10).
  vm_compute. reflexivity.
Defined.

(** ** The classifier *)

(** C6. [get_weather_violation] answers ['Unknown'] without a report.
    With a report, when the three checks return, the answer is the empty
    string if none fired, the label of the check if one fired and
    ['Weather'] if two or three fired; winds and ceiling without
    visibility give ['Weather']. *)
Theorem get_weather_violation_spec (weather : observation)
    (minimums : list float) (m0 m1 m2 m3 : float) (bv bw bc : bool) :
  minimums !! 0 = Some m0 → minimums !! 1 = Some m1 →
  minimums !! 2 = Some m2 → minimums !! 3 = Some m3 →
  bad_visibility (visibility weather) m1 = Ok bv →
  bad_winds (wind weather) m2 m3 = Ok bw →
  bad_ceiling (sky weather) m0 = Ok bc →
  get_weather_violation None minimums = Ok "Unknown"
  ∧ get_weather_violation (Some weather) minimums = Ok (label_of bv bw bc)
  ∧ (bv = false → bw = true → bc = true →
     get_weather_violation (Some weather) minimums = Ok "Weather").
Proof.
  intros H0 H1 H2 H3 Hv Hw Hc.
  assert (Hmain : get_weather_violation (Some weather) minimums
                  = Ok (label_of bv bw bc)).
  { unfold get_weather_violation, index.
    rewrite H0, H1, H2, H3. cbn. rewrite Hv. cbn. rewrite Hw. cbn.
    rewrite Hc. cbn. destruct bv, bw, bc; reflexivity. }
  split; [reflexivity | split; [exact Hmain |]].
  intros -> -> ->. exact Hmain.
Qed.

Lemma get_weather_violation_spec_witness :
  get_weather_violation None sample_minimums = Ok "Unknown"
  ∧ get_weather_violation (Some sample_report_0700) sample_minimums
    = Ok (label_of false false true)
  ∧ (false = false → false = true → true = true →
     get_weather_violation (Some sample_report_0700) sample_minimums
     = Ok "Weather").
Proof.
  apply (get_weather_violation_spec sample_report_0700 sample_minimums
           1000 3 15 8 false false true);
    vm_compute; reflexivity.
Defined.

(** ** The ceiling check *)

Lemma min_from_floats (l : list float) : ∀ best : float,
  is_nan best = false → Forall (λ y, is_nan y = false) l →
  ∃ m, min_from (VNum best) (VNum <$> l) = Ok (VNum m)
       ∧ least_of m (best :: l) ∧ is_nan m = false.
Proof.
  induction l as [|x l IH]; intros best Hbest Hl.
  - exists best. split; [done|]. split; [|done]. split; [by left|].
    intros y ->%list_elem_of_singleton. apply key_le_refl.
  - apply Forall_cons in Hl as [Hx Hl]. cbn.
    destruct (x <? best)%float eqn:E.
    + destruct (IH x Hx Hl) as (m & -> & [Hm_in Hm_le] & Hm).
      exists m. split; [done|]. split; [|done]. split.
      { apply elem_of_cons in Hm_in as [-> | ?];
          [right; left | right; by right]. }
      intros y [-> | Hy]%elem_of_cons; [|by apply Hm_le].
      apply key_le_trans with (float_key x); [apply Hm_le; by left|].
      by apply key_lt_le, float_ltb_key.
    + destruct (IH best Hbest Hl) as (m & -> & [Hm_in Hm_le] & Hm).
      exists m. split; [done|]. split; [|done]. split.
      { apply elem_of_cons in Hm_in as [-> | ?]; [left | right; by right]. }
      intros y [-> | [-> | Hy]%elem_of_cons]%elem_of_cons.
      * apply Hm_le. by left.
      * apply key_le_trans with (float_key best); [apply Hm_le; by left|].
        apply key_not_lt_le. rewrite <- float_ltb_key by done. congruence.
      * apply Hm_le. by right.
Qed.

Lemma py_min_floats (l : list float) :
  l ≠ [] → Forall (λ y, is_nan y = false) l →
  ∃ m, py_min (VNum <$> l) = Ok (VNum m) ∧ least_of m l ∧ is_nan m = false.
Proof.
  destruct l as [|x l]; [done|]. intros _ [Hx Hl]%Forall_cons.
  apply (min_from_floats l x Hx Hl).
Qed.

Lemma append_min_floats (acc l : list float) :
  Forall (λ y, is_nan y = false) l →
  ∃ ms, append_min (VNum <$> acc) (VNum <$> l) = Ok (VNum <$> (acc ++ ms))
        ∧ (∀ m, m ∈ ms → least_of m l ∧ is_nan m = false)
        ∧ (l ≠ [] → ms ≠ []).
Proof.
  intros Hl. destruct l as [|x l].
  - exists []. rewrite app_nil_r. split; [done|]. split; [|done].
    intros m Hm. by apply not_elem_of_nil in Hm.
  - destruct (py_min_floats (x :: l)) as (m & Hmin & Hleast & Hm); [done..|].
    exists [m]. unfold append_min. rewrite fmap_cons, <- fmap_cons, Hmin. cbn.
    rewrite fmap_app. split; [done|]. split; [|done].
    by intros ? ->%list_elem_of_singleton.
Qed.

Lemma heights_cons (ty : string) (layer : pydict) (rest : list pydict) :
  heights ty (layer :: rest)
  = if layer_has_type ty layer
    then match layer_height layer with
         | Some h => h :: heights ty rest
         | None => heights ty rest
         end
    else heights ty rest.
Proof.
  unfold heights. rewrite filter_cons.
  destruct (layer_has_type ty layer); case_decide; done.
Qed.

Lemma heights_of_type_valid (ty : string) (layers : list pydict) :
  Forall valid_layer layers →
  heights_of_type ty layers = Ok (VNum <$> heights ty layers).
Proof.
  induction 1 as [|layer rest [[t Ht] (h & Hh & _)] _ IH]; [done|].
  rewrite heights_cons. unfold layer_has_type, layer_height. cbn.
  rewrite (getitem_Some _ _ _ Ht), (getitem_Some _ _ _ Hh), Ht, Hh, IH. cbn.
  by destruct (bool_decide (t = ty)).
Qed.

Lemma heights_not_nan (ty : string) (layers : list pydict) :
  Forall valid_layer layers → Forall (λ y, is_nan y = false) (heights ty layers).
Proof.
  induction 1 as [|layer rest [_ (h & Hh & Hnan)] _ IH]; [constructor|].
  rewrite heights_cons. unfold layer_height. rewrite Hh.
  destruct (layer_has_type ty layer); [by constructor | done].
Qed.

Lemma elem_of_heights (ty : string) (layers : list pydict) (h : float) :
  h ∈ heights ty layers
  ↔ ∃ layer, layer ∈ layers ∧ layer_has_type ty layer = true
             ∧ layer !! "height" = Some (VNum h).
Proof.
  unfold heights. rewrite list_elem_of_omap. split.
  - intros (layer & [Hty Hin]%list_elem_of_filter & Hh). exists layer.
    repeat split; try done. unfold layer_height in Hh.
    destruct (layer !! "height") as [[]|]; congruence.
  - intros (layer & Hin & Hty & Hh). exists layer. split.
    + by apply list_elem_of_filter.
    + unfold layer_height. by rewrite Hh.
Qed.

Lemma ceiling_at_heights (layers : list pydict) (h : float) :
  (∃ layer, layer ∈ layers ∧ ceiling_at layer h)
  ↔ h ∈ heights "broken" layers ++ heights "overcast" layers
        ++ heights "indefinite ceiling" layers.
Proof.
  rewrite !elem_of_app, !elem_of_heights. unfold ceiling_at, layer_has_type.
  split.
  - intros (layer & Hin & (t & Ht & Hty) & Hh). unfold is_ceiling_type in Hty.
    apply orb_true_iff in Hty as [[Hty | Hty]%orb_true_iff | Hty];
      [left | right; left | right; right];
      exists layer; by rewrite Ht.
  - intros [H | [H | H]]; destruct H as (layer & Hin & Hty & Hh);
      exists layer; (split; [done|]); (split; [|done]);
      destruct (layer !! "type") as [t|]; try done;
      exists t; (split; [done|]); unfold is_ceiling_type; rewrite Hty;
      by rewrite ?orb_true_r.
Qed.

Lemma append_min_least (ms l : list float) (y : float) :
  (∀ m, m ∈ ms → least_of m l ∧ is_nan m = false) → (l ≠ [] → ms ≠ []) →
  y ∈ l → ∃ m, m ∈ ms ∧ key_le (float_key m) (float_key y).
Proof.
  intros Hms Hne Hy. destruct ms as [|m ms].
  - destruct Hne; [|done]. intros ->. by apply not_elem_of_nil in Hy.
  - exists m. split; [by left|]. destruct (Hms m) as [[_ Hle] _]; [by left|].
    by apply Hle.
Qed.

Lemma append_min_empty (ms l : list float) :
  (l ≠ [] → ms ≠ []) → ms = [] → l = [].
Proof. intros Hne ->. destruct l; [done|]. by destruct Hne. Qed.

Lemma bad_ceiling_layers (layers : list pydict) (minimum : float) :
  Forall valid_layer layers →
  let all := heights "broken" layers ++ heights "overcast" layers
             ++ heights "indefinite ceiling" layers in
  (all = [] ∧ bad_ceiling (Layers layers) minimum = Ok false)
  ∨ (∃ g, least_of g all
          ∧ bad_ceiling (Layers layers) minimum = Ok (g <? minimum)%float).
Proof.
  intros Hvalid all. subst all. unfold bad_ceiling.
  rewrite !heights_of_type_valid by done. cbn.
  destruct (append_min_floats [] (heights "scattered" layers))
    as (ms_s & Hs & _); [by apply heights_not_nan|].
  destruct (append_min_floats [] (heights "broken" layers))
    as (ms_b & Hb & Hb_least & Hb_ne); [by apply heights_not_nan|].
  destruct (append_min_floats ms_b (heights "overcast" layers))
    as (ms_o & Ho & Ho_least & Ho_ne); [by apply heights_not_nan|].
  destruct (append_min_floats (ms_b ++ ms_o) (heights "indefinite ceiling" layers))
    as (ms_i & Hi & Hi_least & Hi_ne); [by apply heights_not_nan|].
  cbn in Hs, Hb. rewrite Hs. cbn. rewrite Hb. cbn. rewrite Ho. cbn.
  rewrite Hi. cbn.
  set (B := heights "broken" layers) in *.
  set (O := heights "overcast" layers) in *.
  set (I := heights "indefinite ceiling" layers) in *.
  assert (Hcomp : ∀ m, m ∈ (ms_b ++ ms_o) ++ ms_i →
                       m ∈ B ++ O ++ I ∧ is_nan m = false).
  { intros m [[Hm | Hm]%elem_of_app | Hm]%elem_of_app;
      [destruct (Hb_least m Hm) as [[? _] ?]
      |destruct (Ho_least m Hm) as [[? _] ?]
      |destruct (Hi_least m Hm) as [[? _] ?]];
      (split; [|done]); rewrite !elem_of_app; auto. }
  destruct ((ms_b ++ ms_o) ++ ms_i) as [|c comp] eqn:Ecomp.
  - left. split; [|done].
    apply app_eq_nil in Ecomp as [[Eb Eo]%app_eq_nil Ei].
    by rewrite (append_min_empty _ _ Hb_ne Eb), (append_min_empty _ _ Ho_ne Eo),
      (append_min_empty _ _ Hi_ne Ei).
  - right.
    destruct (py_min_floats (c :: comp)) as (g & Hg & [Hg_in Hg_le] & _);
      [done | |].
    { apply Forall_forall. intros m Hm. by apply Hcomp. }
    exists g. rewrite fmap_cons, <- fmap_cons, Hg. cbn. split; [|done]. split.
    + by apply Hcomp.
    + intros y Hy.
      assert (∃ m, m ∈ c :: comp ∧ key_le (float_key m) (float_key y))
        as (m & Hm & Hle).
      { rewrite <- Ecomp.
        apply elem_of_app in Hy as [Hy | [Hy | Hy]%elem_of_app];
          [destruct (append_min_least _ _ _ Hb_least Hb_ne Hy) as (m & ? & ?)
          |destruct (append_min_least _ _ _ Ho_least Ho_ne Hy) as (m & ? & ?)
          |destruct (append_min_least _ _ _ Hi_least Hi_ne Hy) as (m & ? & ?)];
          exists m; rewrite !elem_of_app; auto. }
      apply key_le_trans with (float_key m); [by apply Hg_le | done].
Qed.

(** C5. [bad_ceiling] answers [False] for ['clear'] and [True] for
    ['unavailable']. For a list of layers, each with a type and a numeric
    height: without a layer that is broken, overcast or an indefinite
    ceiling the answer is [False] whatever the limit; otherwise the
    governing height is a least height among those layers and the answer
    is whether the limit is above it. *)
Theorem bad_ceiling_spec (layers : list pydict) (minimum_ft : float) :
  Forall valid_layer layers →
  bad_ceiling Clear minimum_ft = Ok false
  ∧ bad_ceiling CeilUnavailable minimum_ft = Ok true
  ∧ ((∀ layer h, layer ∈ layers → ¬ ceiling_at layer h) →
     bad_ceiling (Layers layers) minimum_ft = Ok false)
  ∧ ((∃ layer h, layer ∈ layers ∧ ceiling_at layer h) →
     ∃ governing,
       (∃ layer, layer ∈ layers ∧ ceiling_at layer governing)
       ∧ (∀ layer h, layer ∈ layers → ceiling_at layer h →
            (governing <=? h)%float = true)
       ∧ bad_ceiling (Layers layers) minimum_ft
         = Ok (governing <? minimum_ft)%float).
Proof.
  intros Hvalid. split; [done|]. split; [done|].
  assert (Hnan : ∀ h, (∃ layer, layer ∈ layers ∧ ceiling_at layer h) →
                      is_nan h = false).
  { intros h (layer & Hin & _ & Hh).
    rewrite Forall_forall in Hvalid.
    destruct (Hvalid layer Hin) as [_ (h' & Hh' & Hnan)]. congruence. }
  destruct (bad_ceiling_layers layers minimum_ft Hvalid)
    as [[Hnone Hres] | (g & [Hg_in Hg_le] & Hres)].
  - split; [done|]. intros (layer & h & Hin & Hat).
    assert (h ∈ @nil float) as []%not_elem_of_nil.
    rewrite <- Hnone. apply ceiling_at_heights. eauto.
  - split.
    + intros Hno. apply ceiling_at_heights in Hg_in as (layer & Hin & Hat).
      by destruct (Hno layer g Hin).
    + intros _. exists g. split; [by apply ceiling_at_heights|].
      split; [|done]. intros layer h Hin Hat.
      apply float_leb_key.
      * apply Hnan, ceiling_at_heights, Hg_in.
      * apply Hnan. eauto.
      * apply Hg_le, ceiling_at_heights. eauto.
Qed.

Lemma bad_ceiling_spec_witness :
  let layers : list pydict :=
    [ {[ "type" := VStr "scattered"; "height" := VNum 700 ]};
      {[ "type" := VStr "overcast"; "height" := VNum 1200 ]} ] in
  bad_ceiling Clear 2000 = Ok false
  ∧ bad_ceiling CeilUnavailable 2000 = Ok true
  ∧ ((∀ layer h, layer ∈ layers → ¬ ceiling_at layer h) →
     bad_ceiling (Layers layers) 2000 = Ok false)
  ∧ ((∃ layer h, layer ∈ layers ∧ ceiling_at layer h) →
     ∃ governing,
       (∃ layer, layer ∈ layers ∧ ceiling_at layer governing)
       ∧ (∀ layer h, layer ∈ layers → ceiling_at layer h →
            (governing <=? h)%float = true)
       ∧ bad_ceiling (Layers layers) 2000 = Ok (governing <? 2000)%float).
Proof.
  intros layers. apply (bad_ceiling_spec layers 2000).
  repeat constructor; eexists; vm_compute; try reflexivity;
    (split; reflexivity).
Defined.

(** ** The order of strings *)

Lemma ascii_compare_refl (c : ascii) : Ascii.compare c c = Eq.
Proof. unfold Ascii.compare. apply N.compare_refl. Qed.

Lemma string_compare_refl (s : string) : String.compare s s = Eq.
Proof. induction s as [|c s IH]; [done|]. cbn. by rewrite ascii_compare_refl. Qed.

Lemma string_compare_trans (a : string) : ∀ b c : string,
  String.compare a b ≠ Gt → String.compare b c ≠ Gt → String.compare a c ≠ Gt.
Proof.
  induction a as [|x a IH]; intros [|y b] [|z c]; cbn; try done.
  unfold Ascii.compare.
  destruct (N.compare_spec (N_of_ascii x) (N_of_ascii y)) as [Exy|Hxy|Hxy];
    destruct (N.compare_spec (N_of_ascii y) (N_of_ascii z)) as [Eyz|Hyz|Hyz];
    destruct (N.compare_spec (N_of_ascii x) (N_of_ascii z)) as [Exz|Hxz|Hxz];
    try done; try lia.
  apply IH.
Qed.

Lemma string_compare_Gt_le (a b : string) :
  String.compare a b = Gt → String.compare b a ≠ Gt.
Proof. rewrite (String.compare_antisym a b). by destruct (String.compare b a). Qed.

(** [max] returns a greatest element. *)
Lemma max_from_greatest (l : list string) : ∀ best : string,
  max_from best l ∈ best :: l
  ∧ ∀ y, y ∈ best :: l → String.compare y (max_from best l) ≠ Gt.
Proof.
  induction l as [|x l IH]; intros best; cbn.
  - split; [by left|]. intros y ->%list_elem_of_singleton.
    by rewrite string_compare_refl.
  - unfold str_gtb. destruct (String.compare x best) eqn:E.
    all: destruct (IH best) as [Hin Hle]; destruct (IH x) as [Hin' Hle'].
    + split.
      { apply elem_of_cons in Hin as [-> | ?]; [left | right; by right]. }
      intros y [-> | [-> | Hy]%elem_of_cons]%elem_of_cons.
      * apply Hle. by left.
      * apply string_compare_trans with best; [by rewrite E | apply Hle; by left].
      * apply Hle. by right.
    + split.
      { apply elem_of_cons in Hin as [-> | ?]; [left | right; by right]. }
      intros y [-> | [-> | Hy]%elem_of_cons]%elem_of_cons.
      * apply Hle. by left.
      * apply string_compare_trans with best; [by rewrite E | apply Hle; by left].
      * apply Hle. by right.
    + split; [by right|].
      intros y [-> | Hy]%elem_of_cons; [|by apply Hle'].
      apply string_compare_trans with x;
        [by apply string_compare_Gt_le | apply Hle'; by left].
Qed.

Lemma string_compare_app (a b : string) : ∀ s t : string,
  String.length a = String.length b →
  String.compare (a +:+ s) (b +:+ t)
  = lex (String.compare a b) (String.compare s t).
Proof.
  revert b. induction a as [|x a IH]; intros [|y b] s t Hlen; try done.
  change (String.compare (String x a +:+ s) (String y b +:+ t))
    with (match Ascii.compare x y with
          | Eq => String.compare (a +:+ s) (b +:+ t)
          | Lt => Lt
          | Gt => Gt
          end).
  change (String.compare (String x a) (String y b))
    with (match Ascii.compare x y with
          | Eq => String.compare a b
          | Lt => Lt
          | Gt => Gt
          end).
  destruct (Ascii.compare x y); try done.
  apply IH. by injection Hlen.
Qed.

Lemma string_compare_prefix (p s t : string) :
  String.compare (p +:+ s) (p +:+ t) = String.compare s t.
Proof. by rewrite string_compare_app, string_compare_refl. Qed.

(** ** Fixed-width numbers *)

Lemma string_length_app (a b : string) :
  String.length (a +:+ b) = String.length a + String.length b.
Proof.
  induction a as [|x a IH]; [done|].
  change (String x a +:+ b) with (String x (a +:+ b)). cbn. by rewrite IH.
Qed.

Lemma length_zfill (w : nat) : ∀ n : N, String.length (zfill w n) = w.
Proof.
  induction w as [|w IH]; intros n; [done|].
  cbn [zfill]. rewrite string_length_app, IH. cbn. lia.
Qed.

Lemma compare_digit (x y : N) :
  Ascii.compare (digit x) (digit y) = (x mod 10 ?= y mod 10)%N.
Proof.
  unfold Ascii.compare, digit.
  pose proof (N.mod_lt x 10 ltac:(done)). pose proof (N.mod_lt y 10 ltac:(done)).
  rewrite !N_ascii_embedding by lia.
  destruct (N.compare_spec (x mod 10) (y mod 10));
    [apply N.compare_eq_iff | apply N.compare_lt_iff | apply N.compare_gt_iff];
    lia.
Qed.

Lemma compare_tens (q1 r1 q2 r2 : N) :
  (r1 < 10)%N → (r2 < 10)%N →
  lex (q1 ?= q2)%N (r1 ?= r2)%N = (10 * q1 + r1 ?= 10 * q2 + r2)%N.
Proof.
  intros H1 H2. symmetry.
  destruct (N.compare_spec q1 q2); destruct (N.compare_spec r1 r2); cbn;
    [apply N.compare_eq_iff | apply N.compare_lt_iff | apply N.compare_gt_iff
    |apply N.compare_lt_iff | apply N.compare_lt_iff | apply N.compare_lt_iff
    |apply N.compare_gt_iff | apply N.compare_gt_iff | apply N.compare_gt_iff];
    lia.
Qed.

Lemma compare_div_mod (x y : N) :
  lex (x / 10 ?= y / 10)%N (x mod 10 ?= y mod 10)%N = (x ?= y)%N.
Proof.
  rewrite compare_tens by by apply N.mod_lt.
  by rewrite <- !N.div_mod by done.
Qed.

Lemma compare_zfill (w : nat) : ∀ x y : N,
  (x < 10 ^ N.of_nat w)%N → (y < 10 ^ N.of_nat w)%N →
  String.compare (zfill w x) (zfill w y) = (x ?= y)%N.
Proof.
  induction w as [|w IH]; intros x y Hx Hy.
  - cbn in *. symmetry. apply N.compare_eq_iff. lia.
  - rewrite Nat2N.inj_succ, N.pow_succ_r' in Hx, Hy.
    cbn [zfill]. rewrite string_compare_app by by rewrite !length_zfill.
    rewrite IH.
    + cbn. rewrite compare_digit.
      rewrite <- (compare_div_mod x y).
      by destruct (x mod 10 ?= y mod 10)%N.
    + apply N.Div0.div_lt_upper_bound. lia.
    + apply N.Div0.div_lt_upper_bound. lia.
Qed.

(** ** ISO keys are ordered as their instants *)

Lemma lex_Eq_r (c : comparison) : lex c Eq = c.
Proof. by destruct c. Qed.

Lemma offset_before_dot (tz : option Z) (s : string) :
  String.compare (format_offset tz) (String "." s) = Lt.
Proof.
  destruct tz as [off|]; [|done].
  unfold format_offset. by destruct (off <? 0)%Z.
Qed.

Lemma compare_fraction (us1 us2 : N) (tz : option Z) :
  (us1 < 1000000)%N → (us2 < 1000000)%N →
  String.compare
    ((if (us1 =? 0)%N then "" else "." +:+ zfill 6 us1) +:+ format_offset tz)
    ((if (us2 =? 0)%N then "" else "." +:+ zfill 6 us2) +:+ format_offset tz)
  = (us1 ?= us2)%N.
Proof.
  intros H1 H2.
  destruct (N.eqb_spec us1 0) as [-> | Hne1], (N.eqb_spec us2 0) as [-> | Hne2].
  - apply string_compare_refl.
  - change ("" +:+ format_offset tz) with (format_offset tz).
    change (("." +:+ zfill 6 us2) +:+ format_offset tz)
      with (String "." (zfill 6 us2 +:+ format_offset tz)).
    rewrite offset_before_dot. symmetry. apply N.compare_lt_iff. lia.
  - change ("" +:+ format_offset tz) with (format_offset tz).
    change (("." +:+ zfill 6 us1) +:+ format_offset tz)
      with (String "." (zfill 6 us1 +:+ format_offset tz)).
    rewrite String.compare_antisym, offset_before_dot. symmetry.
    apply N.compare_gt_iff. lia.
  - rewrite string_compare_app
      by by rewrite !string_length_app, !length_zfill.
    rewrite string_compare_prefix, string_compare_refl, lex_Eq_r.
    by apply (compare_zfill 6).
Qed.

Lemma valid_datetime_bounds (d : datetime) :
  valid_datetime d = true →
  (year d < 10000 ∧ month d < 100 ∧ day d < 100 ∧ hour d < 100
   ∧ minute d < 100 ∧ second d < 100 ∧ microsecond d < 1000000)%N.
Proof.
  unfold valid_datetime. rewrite !andb_true_iff.
  rewrite !N.leb_le, !N.ltb_lt. lia.
Qed.

Lemma isoformat_compare (d1 d2 : datetime) :
  valid_datetime d1 = true → valid_datetime d2 = true →
  tzinfo d1 = tzinfo d2 →
  String.compare (isoformat d1) (isoformat d2) = dt_compare d1 d2.
Proof.
  intros (Hy1 & Hm1 & Hd1 & Hh1 & Hmi1 & Hs1 & Hus1)%valid_datetime_bounds.
  intros (Hy2 & Hm2 & Hd2 & Hh2 & Hmi2 & Hs2 & Hus2)%valid_datetime_bounds.
  intros Htz. unfold isoformat, dt_compare. rewrite Htz.
  rewrite string_compare_app by by rewrite !length_zfill.
  rewrite (compare_zfill 4) by done. f_equal.
  rewrite string_compare_prefix.
  rewrite string_compare_app by by rewrite !length_zfill.
  rewrite (compare_zfill 2) by done. f_equal.
  rewrite string_compare_prefix.
  rewrite string_compare_app by by rewrite !length_zfill.
  rewrite (compare_zfill 2) by done. f_equal.
  rewrite string_compare_prefix.
  rewrite string_compare_app by by rewrite !length_zfill.
  rewrite (compare_zfill 2) by done. f_equal.
  rewrite string_compare_prefix.
  rewrite string_compare_app by by rewrite !length_zfill.
  rewrite (compare_zfill 2) by done. f_equal.
  rewrite string_compare_prefix.
  rewrite string_compare_app by by rewrite !length_zfill.
  rewrite (compare_zfill 2) by done. f_equal.
  by apply compare_fraction.
Qed.

Lemma isoformat_not_empty (d : datetime) : String.length (isoformat d) ≠ 0.
Proof.
  unfold isoformat. rewrite string_length_app, length_zfill. lia.
Qed.

Lemma dt_compare_antisym (a b : datetime) :
  dt_compare a b = CompOpp (dt_compare b a).
Proof.
  unfold dt_compare.
  rewrite (N.compare_antisym (year a)), (N.compare_antisym (month a)),
    (N.compare_antisym (day a)), (N.compare_antisym (hour a)),
    (N.compare_antisym (minute a)), (N.compare_antisym (second a)),
    (N.compare_antisym (microsecond a)).
  destruct (year a ?= year b)%N, (month a ?= month b)%N, (day a ?= day b)%N,
    (hour a ?= hour b)%N, (minute a ?= minute b)%N, (second a ?= second b)%N,
    (microsecond a ?= microsecond b)%N; reflexivity.
Qed.

(** ** The observation resolver *)

Section ResolverFacts.
Context `{collaborators}.

Lemma keep_iff (takeoff d : datetime) :
  tzinfo_eqb (tzinfo takeoff) (tzinfo d) && dt_gtb takeoff d = true
  ↔ tzinfo d = tzinfo takeoff ∧ dt_compare d takeoff = Lt.
Proof.
  unfold tzinfo_eqb, dt_gtb.
  rewrite andb_true_iff, bool_decide_eq_true, (dt_compare_antisym takeoff d).
  destruct (dt_compare d takeoff); cbn; split; intros [? ?]; split;
    congruence.
Qed.

Lemma before_keys_spec (takeoff : datetime) (keys : list string) :
  (∀ k, k ∈ keys → ∃ d, str_to_time k = Ok d) →
  ∃ ks, before_keys takeoff keys = Ok ks
        ∧ ∀ k, k ∈ ks ↔ k ∈ keys ∧ ∃ d, str_to_time k = Ok d
                         ∧ tzinfo d = tzinfo takeoff
                         ∧ dt_compare d takeoff = Lt.
Proof.
  induction keys as [|key rest IH]; intros Hparse.
  - exists []. split; [done|]. intros k. split.
    + by intros ?%not_elem_of_nil.
    + by intros [?%not_elem_of_nil _].
  - destruct IH as (ks & Hks & Hiff).
    { intros k Hk. apply Hparse. by right. }
    destruct (Hparse key) as [d Hd]; [by left|].
    cbn. rewrite Hd. cbn. rewrite Hks. cbn.
    destruct (tzinfo_eqb (tzinfo takeoff) (tzinfo d) && dt_gtb takeoff d)
      eqn:Ekeep; eexists; (split; [reflexivity|]); intros k.
    + apply keep_iff in Ekeep. rewrite !elem_of_cons, Hiff. split.
      * intros [-> | [Hin Hk]]; [split; [by left | eauto] | split; [by right | done]].
      * intros [[-> | Hin] Hk]; [by left | right; done].
    + rewrite elem_of_cons, Hiff. split.
      * intros [Hin Hk]. split; [by right | done].
      * intros [[-> | Hin] Hk]; [|done].
        destruct Hk as (d' & Hd' & Hk). rewrite Hd in Hd'.
        injection Hd' as <-. apply keep_iff in Hk. congruence.
Qed.

Lemma elem_of_keys (weather : gmap string observation) (k : string) :
  k ∈ (map_to_list weather).*1 ↔ ∃ report, weather !! k = Some report.
Proof.
  rewrite list_elem_of_fmap. split.
  - intros ([k' report] & -> & Hin%elem_of_map_to_list). eauto.
  - intros [report Hk]. exists (k, report). split; [done|].
    by apply elem_of_map_to_list.
Qed.

(** Without an exact key and without an earlier report of the same
    offset, the fallback path takes the greatest element of an empty
    list. *)
Lemma get_weather_report_no_prior (takeoff : datetime)
    (weather : gmap string observation) :
  weather !! isoformat takeoff = None →
  (∀ key report, weather !! key = Some report → ∃ d, str_to_time key = Ok d) →
  (∀ key d report, ¬ prior_entry takeoff weather key d report) →
  get_weather_report takeoff weather = Raise ValueError.
Proof.
  intros Hexact Hparse Hnone. unfold get_weather_report. rewrite Hexact.
  destruct (before_keys_spec takeoff (map_to_list weather).*1)
    as (ks & -> & Hks).
  { intros k [report Hk]%elem_of_keys. eauto. }
  destruct ks as [|k ks]; [done|].
  destruct (proj1 (Hks k)) as [[report Hk]%elem_of_keys (d & Hd & Htz & Hlt)];
    [by left|].
  by destruct (Hnone k d report).
Qed.

(** C7, as amended. When the log has the ISO representation of the
    takeoff as a key, [get_weather_report] returns the report under that
    key, whatever else the log holds. Otherwise, when the keys are
    timestamps and some report has the offset of the takeoff and lies
    before it, the function returns such a report: the one whose key is
    the greatest as a string. When every key is written as [isoformat]
    prints it, no other such report is later than the one returned. *)
Theorem get_weather_report_spec (takeoff : datetime)
    (weather : gmap string observation) :
  (∀ report, weather !! isoformat takeoff = Some report →
     get_weather_report takeoff weather = Ok (Some report))
  ∧ (weather !! isoformat takeoff = None →
     map_Forall (λ key _, timestamp_key key) weather →
     (∃ key d report, prior_entry takeoff weather key d report) →
     ∃ key d report,
       prior_entry takeoff weather key d report
       ∧ (∀ key' d' report', prior_entry takeoff weather key' d' report' →
            String.compare key' key ≠ Gt)
       ∧ (map_Forall (λ key _, iso_key key) weather →
          ∀ key' d' report', prior_entry takeoff weather key' d' report' →
            dt_le d' d)
       ∧ get_weather_report takeoff weather = Ok (Some report)).
Proof.
  split.
  { intros report Hexact. unfold get_weather_report. by rewrite Hexact. }
  intros Hexact Hstamp (key0 & d0 & report0 & Hprior0).
  unfold get_weather_report. rewrite Hexact.
  destruct (before_keys_spec takeoff (map_to_list weather).*1)
    as (ks & -> & Hks).
  { intros k [report Hk]%elem_of_keys.
    by destruct (Hstamp k report Hk) as [_ Hd]. }
  assert (Hprior : ∀ key d report,
            prior_entry takeoff weather key d report → key ∈ ks).
  { intros key d report (Hk & Hd & Htz & Hlt). apply Hks. split.
    - apply elem_of_keys. eauto.
    - eauto. }
  destruct ks as [|k ks]; [by apply Hprior, not_elem_of_nil in Hprior0|].
  cbn. destruct (max_from_greatest ks k) as [Hbest_in Hbest_le].
  set (best := max_from k ks) in *.
  destruct (proj1 (Hks best) Hbest_in)
    as [[report Hreport]%elem_of_keys (d & Hd & Htz & Hlt)].
  destruct (Hstamp best report Hreport) as [Hnot_empty _].
  assert ((String.length best =? 0) = false) as ->.
  { apply Nat.eqb_neq. by destruct best. }
  cbn. rewrite Hreport.
  exists best, d, report. split; [done|]. split; [|split; [|done]].
  - intros key' d' report' Hprior'. by eapply Hbest_le, Hprior.
  - intros Hiso key' d' report' Hprior'.
    pose proof (Hbest_le key' (Hprior _ _ _ Hprior')) as Hle.
    destruct Hprior' as (Hk' & Hd' & Htz' & Hlt').
    destruct (Hiso best report Hreport) as (d_iso & Hd_iso & Hvalid & Hfmt).
    rewrite Hd in Hd_iso. injection Hd_iso as <-.
    destruct (Hiso key' report' Hk') as (d_iso & Hd_iso & Hvalid' & Hfmt').
    rewrite Hd' in Hd_iso. injection Hd_iso as <-.
    unfold dt_le. rewrite <- isoformat_compare by congruence.
    by rewrite Hfmt, Hfmt'.
Qed.

End ResolverFacts.

Lemma get_weather_report_spec_witness :
  (∀ report, sample_weather !! isoformat (takeoff_at 7 0) = Some report →
     get_weather_report (H := sample) (takeoff_at 7 0) sample_weather
     = Ok (Some report))
  ∧ ∃ key d report,
      prior_entry (H := sample) (takeoff_at 9 30) sample_weather key d report
      ∧ (∀ key' d' report',
           prior_entry (H := sample) (takeoff_at 9 30) sample_weather
             key' d' report' → String.compare key' key ≠ Gt)
      ∧ (∀ key' d' report',
           prior_entry (H := sample) (takeoff_at 9 30) sample_weather
             key' d' report' → dt_le d' d)
      ∧ get_weather_report (H := sample) (takeoff_at 9 30) sample_weather
        = Ok (Some report).
Proof.
  split.
  - apply (get_weather_report_spec (H := sample) (takeoff_at 7 0) sample_weather).
  - destruct (get_weather_report_spec (H := sample) (takeoff_at 9 30)
                sample_weather) as [_ Hfallback].
    destruct Hfallback as (key & d & report & Hprior & Hstr & Htime & Hres).
    + vm_compute. reflexivity.
    + unfold sample_weather.
      repeat (apply map_Forall_insert_2;
              [split; [done|]; eexists; vm_compute; reflexivity|]).
      apply map_Forall_empty.
    + exists "2017-04-21T09:00:00-04:00", (takeoff_at 9 0), sample_report_0900.
      repeat split; vm_compute; reflexivity.
    + exists key, d, report.
      split; [exact Hprior|]. split; [exact Hstr|]. split; [|exact Hres].
      apply Htime. unfold sample_weather.
      repeat (apply map_Forall_insert_2;
              [eexists; split; [vm_compute; reflexivity|]; split;
               vm_compute; reflexivity|]).
      apply map_Forall_empty.
Defined.

(** C7 as stated fails. The log holds the report of 08:00 under a key in
    the basic ISO-8601 form and the report of 09:00 under a key in the
    extended form; both have the offset of the takeoff at 10:00 and lie
    before it. The basic key is the greater string, so the report of
    08:00 is returned, not the most recent one. *)
Lemma get_weather_report_mixed_forms_counterexample :
  mixed_weather !! isoformat (takeoff_at 10 0) = None
  ∧ prior_entry (H := sample_both_forms) (takeoff_at 10 0) mixed_weather
      "20170421T080000-0400" (takeoff_at 8 0) sample_report_0700
  ∧ prior_entry (H := sample_both_forms) (takeoff_at 10 0) mixed_weather
      "2017-04-21T09:00:00-04:00" (takeoff_at 9 0) sample_report_0900
  ∧ dt_compare (takeoff_at 8 0) (takeoff_at 9 0) = Lt
  ∧ sample_report_0700 ≠ sample_report_0900
  ∧ get_weather_report (H := sample_both_forms) (takeoff_at 10 0) mixed_weather
    = Ok (Some sample_report_0700).
Proof.
  split; [vm_compute; reflexivity|].
  split; [repeat split; vm_compute; reflexivity|].
  split; [repeat split; vm_compute; reflexivity|].
  split; [vm_compute; reflexivity|].
  split; [|vm_compute; reflexivity].
  intros E. apply (f_equal wind) in E. discriminate E.
Qed.

(** C1 (the code fails here). With the log that holds one report, at
    07:00-04:00, and a takeoff at 06:00-04:00, no key is the ISO
    representation of the takeoff and no report lies before it; the call
    does not return [None], it raises [ValueError]. *)
Theorem get_weather_report_without_prior_raises :
  single_weather !! isoformat (takeoff_at 6 0) = None
  ∧ (∀ key d report,
       ¬ prior_entry (H := sample) (takeoff_at 6 0) single_weather key d report)
  ∧ get_weather_report (H := sample) (takeoff_at 6 0) single_weather
    = Raise ValueError.
Proof.
  split; [vm_compute; reflexivity|]. split; [|vm_compute; reflexivity].
  intros key d report (Hkey & Hd & _ & Hlt).
  unfold single_weather in Hkey.
  apply lookup_singleton_Some in Hkey as [<- _].
  vm_compute in Hd. injection Hd as <-. vm_compute in Hlt. discriminate.
Qed.

(** ** The audit driver *)

Section DriverFacts.
Context `{collaborators}.

(** A lesson whose label is computed from an unbound [vfr] sets it, so
    the binding left by earlier lessons does not matter. *)
Lemma lesson_violation_any_vfr (daycycle : Daycycle)
    (weather : gmap string observation)
    (minimums students : list (list string)) (line : list string)
    (label : string) (vfr : option bool) :
  record_label daycycle weather minimums students line = Ok label →
  ∃ vfr', lesson_violation daycycle weather minimums students vfr line
          = Ok (vfr', label).
Proof.
  unfold record_label, lesson_violation.
  destruct (index line 3) as [stamp|]; [cbn|done].
  destruct (str_to_time stamp) as [takeoff|]; [cbn|done].
  destruct (index line 0) as [id|]; [cbn|done].
  destruct (get_for_id id students) as [student|]; [cbn|done].
  destruct (get_certification takeoff student) as [cert|]; [cbn|done].
  destruct (index line 2) as [instructor|]; [cbn|done].
  destruct (index line 5) as [filed|]; [cbn|done].
  destruct (index line 6) as [area|]; [cbn|done].
  destruct (bool_decide (filed = "VFR")); [|destruct (bool_decide (filed = "IFR"))];
    [| |done]; cbn;
    (destruct (daytime takeoff daycycle) as [is_day|]; [cbn|done]);
    (destruct (get_minimums _ _ _ _ _ _) as [pilot_minimums|]; [cbn|done]);
    (destruct (get_weather_report takeoff weather) as [conditions|]; [cbn|done]);
    (destruct (get_weather_violation _ _) as [viola|]; [cbn|done]);
    intros [= <-]; eauto.
Qed.



Lemma io_bind_Ok {A B : Type} (m : io A) (f : A → io B)
    (evs : list event) (a : A) :
  m = IO evs (Ok a) → m ≫= f = IO (evs ++ trace (f a)) (outcome (f a)).
Proof. by intros ->. Qed.

(** C10. Called with [None] as the output, [discover_violations] writes
    the header and the violations to the file ['output.csv']: whenever
    the violations are listed and the writer returns, the trace ends with
    that write and the summary line, and every call that returns has
    written to ['output.csv']. *)
Theorem discover_violations_default_output (directory : string) :
  (∀ evs vios,
     list_weather_violations directory = IO evs (Ok vios) →
     write_csv_result (HEADER ++ vios) "output.csv" = Ok () →
     discover_violations (ArgStr directory) ArgNone
     = IO (evs ++ [WriteCsv (HEADER ++ vios) "output.csv";
                   Print (summary (length vios))]) (Ok ()))
  ∧ (outcome (discover_violations (ArgStr directory) ArgNone) = Ok () →
     ∃ vios, WriteCsv (HEADER ++ vios) "output.csv"
             ∈ trace (discover_violations (ArgStr directory) ArgNone)).
Proof.
  split.
  - intros evs vios Hlist Hwrite. unfold discover_violations.
    rewrite (io_bind_Ok _ _ _ _ Hlist). unfold write_csv.
    rewrite Hwrite. reflexivity.
  - unfold discover_violations.
    destruct (list_weather_violations directory) as [evs [vios|e]]; [|done].
    intros _. exists vios. unfold write_csv, mbind, io_bind. cbn.
    destruct (write_csv_result _ _); cbn; rewrite elem_of_app; right; by left.
Qed.

(** X23. The usage line is printed, and nothing else is done, for no
    argument, for more than two arguments and for two arguments one of
    which is ['--test']. The single argument ['--test'] runs the test
    suite. Two arguments, neither of them ['--test'], call
    [discover_violations] with them; the usage line follows exactly when
    that call raises. *)
Theorem execute_spec (args : list string) :
  (length args = 0 ∨ 2 < length args ∨ (length args = 2 ∧ "--test" ∈ args) →
   execute args = IO [Print USAGE] (Ok ()))
  ∧ (args = ["--test"] → execute args = test_all)
  ∧ (∀ directory output,
       args = [directory; output] →
       directory ≠ "--test" → output ≠ "--test" →
       let audit := discover_violations (ArgStr directory) (ArgStr output) in
       (outcome audit = Ok () → execute args = audit)
       ∧ (∀ e, outcome audit = Raise e →
            execute args = IO (trace audit ++ [Print USAGE]) (Ok ()))).
Proof.
  split; [|split].
  - intros Hshape. unfold execute.
    destruct args as [|a0 [|a1 [|a2 rest]]]; cbn in *.
    + done.
    + exfalso. destruct Hshape as [? | [? | [? _]]]; [done | lia | done].
    + destruct Hshape as [? | [? | [_ Htest]]]; [done | lia |].
      rewrite bool_decide_eq_false_2 by lia.
      destruct (decide (a1 = "--test")) as [-> | Hne1].
      { by rewrite bool_decide_eq_true_2. }
      rewrite (bool_decide_eq_false_2 (_ ∧ Some a1 = _)) by (intros [_ [=]]; done).
      apply elem_of_cons in Htest as [<- | Htest].
      { by rewrite bool_decide_eq_true_2. }
      apply list_elem_of_singleton in Htest. done.
    + by rewrite bool_decide_eq_true_2 by (right; lia).
  - intros ->. reflexivity.
  - intros directory output -> Hdir Hout audit. unfold execute. cbn.
    rewrite bool_decide_eq_false_2 by lia.
    rewrite (bool_decide_eq_false_2 (_ ∧ Some output = _))
      by (intros [_ [=]]; done).
    rewrite (bool_decide_eq_false_2 (_ ∧ Some directory = _))
      by (intros [_ [=]]; done).
    rewrite (bool_decide_eq_false_2 (2 = 1 ∧ _)) by lia.
    rewrite (bool_decide_eq_false_2 (2 = 1)) by lia.
    rewrite (bool_decide_eq_true_2 (2 = 2)) by done.
    fold audit. unfold try_except. split.
    + intros ->. done.
    + intros e ->. done.
Qed.

End DriverFacts.


Lemma discover_violations_default_output_witness :
  let listed := list_weather_violations (H := sample) "KITH-2017" in
  let vios := match outcome listed with Ok vios => vios | Raise _ => [] end in
  discover_violations (H := sample) (ArgStr "KITH-2017") ArgNone
  = IO (trace listed ++ [WriteCsv (HEADER ++ vios) "output.csv";
                         Print (summary (length vios))]) (Ok ())
  ∧ ∃ vios, WriteCsv (HEADER ++ vios) "output.csv"
            ∈ trace (discover_violations (H := sample) (ArgStr "KITH-2017")
                       ArgNone).
Proof.
  intros listed vios.
  destruct (discover_violations_default_output (H := sample) "KITH-2017")
    as [Hwrites Hreturns].
  split.
  - apply (Hwrites (trace listed) vios); vm_compute; reflexivity.
  - apply Hreturns. vm_compute. reflexivity.
Defined.

Lemma execute_spec_witness :
  execute (H := sample) [] = IO [Print USAGE] (Ok ())
  ∧ execute (H := sample) ["KITH-2017"; "--test"] = IO [Print USAGE] (Ok ())
  ∧ execute (H := sample) ["--test"] = test_all (H := sample)
  ∧ execute (H := sample) ["KITH-2017"; "out.csv"]
    = discover_violations (H := sample) (ArgStr "KITH-2017") (ArgStr "out.csv")
  ∧ execute (H := sample) ["nowhere"; "out.csv"]
    = IO (trace (discover_violations (H := sample) (ArgStr "nowhere")
                   (ArgStr "out.csv")) ++ [Print USAGE]) (Ok ()).
Proof.
  split; [|split; [|split; [|split]]].
  - apply (execute_spec (H := sample) []). left. reflexivity.
  - apply (execute_spec (H := sample) ["KITH-2017"; "--test"]).
    right. right. split; [reflexivity|]. right. left.
  - apply (execute_spec (H := sample) ["--test"]). reflexivity.
  - destruct (execute_spec (H := sample) ["KITH-2017"; "out.csv"])
      as (_ & _ & Hpair).
    apply (Hpair "KITH-2017" "out.csv"); [reflexivity | done | done |].
    vm_compute. reflexivity.
  - destruct (execute_spec (H := sample) ["nowhere"; "out.csv"])
      as (_ & _ & Hpair).
    apply (Hpair "nowhere" "out.csv") with (ExternalError "no such file");
      [reflexivity | done | done |].
    vm_compute. reflexivity.
Defined.

(** C2 (the code fails here). The data set ['KITH-2017'] can be audited:
    [discover_violations] returns for it. Given as the single argument,
    it makes [execute] pass the list itself as the only argument of
    [discover_violations], whose two parameters are required; the call
    raises, and the usage line is printed without a file read or
    written. *)
Theorem execute_single_dataset_prints_usage :
  outcome (discover_violations (H := sample) (ArgStr "KITH-2017") ArgNone)
  = Ok ()
  ∧ "KITH-2017" ≠ "--test"
  ∧ execute (H := sample) ["KITH-2017"] = IO [Print USAGE] (Ok ()).
Proof.
  split; [vm_compute; reflexivity|]. split; [done|].
  vm_compute. reflexivity.
Qed.

(** * Further properties *)

(** ** More on the order of binary64 values *)

Lemma SFcompare_Some_not_nan (a b : spec_float) (c : comparison) :
  SFcompare a b = Some c → a ≠ S754_nan ∧ b ≠ S754_nan.
Proof. destruct a, b; cbn; intros; split; congruence. Qed.

Lemma float_is_not_nan (x : float) : Prim2SF x ≠ S754_nan → is_nan x = false.
Proof.
  intros Hx. unfold is_nan. rewrite FloatAxioms.eqb_spec. unfold SFeqb.
  destruct (SFcompare_key _ _ Hx Hx) as (c & -> & _ & Heq).
  by rewrite (proj2 Heq eq_refl).
Qed.

Lemma float_leb_not_nan (x y : float) :
  (x <=? y)%float = true → is_nan x = false ∧ is_nan y = false.
Proof.
  rewrite leb_spec. unfold SFleb.
  destruct (SFcompare (Prim2SF x) (Prim2SF y)) as [c|] eqn:E; [|done].
  intros _. apply SFcompare_Some_not_nan in E as [Hx Hy].
  split; by apply float_is_not_nan.
Qed.

Lemma float_ltb_not_nan (x y : float) :
  (x <? y)%float = true → is_nan x = false ∧ is_nan y = false.
Proof.
  rewrite ltb_spec. unfold SFltb.
  destruct (SFcompare (Prim2SF x) (Prim2SF y)) as [c|] eqn:E; [|done].
  intros _. apply SFcompare_Some_not_nan in E as [Hx Hy].
  split; by apply float_is_not_nan.
Qed.

Lemma key_lt_le_trans (a b c : Z * Z * Z) : key_lt a b → key_le b c → key_lt a c.
Proof. unfold key_le, key_lt. intros H1 [H2 | ->]; [lia | done]. Qed.

Lemma key_le_lt_trans (a b c : Z * Z * Z) : key_le a b → key_lt b c → key_lt a c.
Proof. unfold key_le, key_lt. intros [H1 | ->] H2; [lia | done]. Qed.

Lemma float_leb_trans (x y z : float) :
  (x <=? y)%float = true → (y <=? z)%float = true → (x <=? z)%float = true.
Proof.
  intros Hxy Hyz.
  destruct (float_leb_not_nan _ _ Hxy) as [Hx Hy].
  destruct (float_leb_not_nan _ _ Hyz) as [_ Hz].
  apply float_leb_key in Hxy, Hyz; try done.
  apply float_leb_key; try done. by apply key_le_trans with (float_key y).
Qed.

Lemma float_ltb_leb_trans (x y z : float) :
  (x <? y)%float = true → (y <=? z)%float = true → (x <? z)%float = true.
Proof.
  intros Hxy Hyz.
  destruct (float_ltb_not_nan _ _ Hxy) as [Hx Hy].
  destruct (float_leb_not_nan _ _ Hyz) as [_ Hz].
  apply float_ltb_key in Hxy; try done. apply float_leb_key in Hyz; try done.
  apply float_ltb_key; try done. by apply key_lt_le_trans with (float_key y).
Qed.

Lemma float_leb_ltb_trans (x y z : float) :
  (x <=? y)%float = true → (y <? z)%float = true → (x <? z)%float = true.
Proof.
  intros Hxy Hyz.
  destruct (float_leb_not_nan _ _ Hxy) as [Hx Hy].
  destruct (float_ltb_not_nan _ _ Hyz) as [_ Hz].
  apply float_leb_key in Hxy; try done. apply float_ltb_key in Hyz; try done.
  apply float_ltb_key; try done. by apply key_le_lt_trans with (float_key y).
Qed.

Lemma value_is_true (v : value) (s : string) : value_is v s = true → v = VStr s.
Proof.
  destruct v as [x|t]; [done|]. cbn. by intros ->%bool_decide_eq_true.
Qed.

Lemma has_key_true (d : pydict) (k : string) :
  has_key d k = true → ∃ v, d !! k = Some v.
Proof. unfold has_key. by intros [v Hv]%bool_decide_eq_true; eauto. Qed.

Lemma has_key_false (d : pydict) (k : string) :
  has_key d k = false → d !! k = None.
Proof.
  unfold has_key. intros Hk%bool_decide_eq_false.
  destruct (d !! k) eqn:E; [|done]. destruct Hk. eauto.
Qed.

(** ** The visibility check: when it returns and how it fails *)

Lemma bad_visibility_dict (d : pydict) (units : string) (x minimum : float) :
  governing_distance d = Some (VNum x) →
  d !! "units" = Some (VStr units) →
  units = "FT" ∨ units = "SM" →
  bad_visibility (VisDict d) minimum
  = Ok (to_statute_miles units x <=? minimum)%float.
Proof.
  intros Hgov Hunits Hu. unfold bad_visibility, governing_distance in *.
  destruct (d !! "minimum") as [v|] eqn:Emin.
  - injection Hgov as ->.
    rewrite (has_key_Some _ _ _ Emin), (getitem_Some _ _ _ Hunits),
      (getitem_Some _ _ _ Emin).
    destruct Hu as [-> | ->]; reflexivity.
  - rewrite (has_key_None _ _ Emin), (has_key_Some _ _ _ Hgov),
      (getitem_Some _ _ _ Hunits), (getitem_Some _ _ _ Hgov).
    destruct Hu as [-> | ->]; reflexivity.
Qed.

(** The part of [bad_visibility] that reads one field [key] of the
    dictionary, once the field is known to be there. *)
Lemma bad_visibility_field_inv (d : pydict) (key : string) (v : value)
    (minimum : float) (b : bool) :
  d !! key = Some v →
  (viz ← (u ← getitem d "units";
          if value_is u "FT" then x ← getitem d key; Some <$> truediv x 5280
          else if value_is u "SM" then Some <$> getitem d key
          else Ok None);
   match viz with
   | Some v => limit_ge minimum v
   | None => Raise (UnboundLocalError "viz")
   end) = Ok b →
  ∃ units x, d !! "units" = Some (VStr units) ∧ (units = "FT" ∨ units = "SM")
             ∧ v = VNum x
             ∧ b = (to_statute_miles units x <=? minimum)%float.
Proof.
  intros Hkey. rewrite (getitem_Some _ _ _ Hkey). unfold getitem.
  destruct (d !! "units") as [u|] eqn:Hunits; [cbn|done].
  destruct (value_is u "FT") eqn:Eft.
  - apply value_is_true in Eft as ->. destruct v as [x|s]; [cbn|done].
    intros [= <-]. exists "FT", x. by eauto 10.
  - destruct (value_is u "SM") eqn:Esm; [|done].
    apply value_is_true in Esm as ->. destruct v as [x|s]; [cbn|done].
    intros [= <-]. exists "SM", x. by eauto 10.
Qed.

Lemma bad_visibility_dict_inv (d : pydict) (minimum : float) (b : bool) :
  bad_visibility (VisDict d) minimum = Ok b →
  ∃ units x, d !! "units" = Some (VStr units) ∧ (units = "FT" ∨ units = "SM")
             ∧ governing_distance d = Some (VNum x)
             ∧ b = (to_statute_miles units x <=? minimum)%float.
Proof.
  unfold bad_visibility, governing_distance.
  destruct (has_key d "minimum") eqn:Emin.
  - apply has_key_true in Emin as [v Hv]. rewrite Hv.
    intros (units & x & ? & ? & -> & ?)%(bad_visibility_field_inv _ _ _ _ _ Hv).
    by exists units, x.
  - apply has_key_false in Emin. rewrite Emin.
    destruct (has_key d "prevailing") eqn:Eprev; [|done].
    apply has_key_true in Eprev as [v Hv]. rewrite Hv.
    intros (units & x & ? & ? & -> & ?)%(bad_visibility_field_inv _ _ _ _ _ Hv).
    by exists units, x.
Qed.

(** X1. For a dictionary, [bad_visibility] returns a boolean exactly when
    the units are the string ['FT'] or ['SM'] and the governing field
    (['minimum'], else ['prevailing']) is a number; the boolean is then
    whether the limit is at least the distance in statute miles. *)
Theorem bad_visibility_returns_iff (d : pydict) (minimum : float) (b : bool) :
  bad_visibility (VisDict d) minimum = Ok b
  ↔ ∃ units x, d !! "units" = Some (VStr units)
               ∧ (units = "FT" ∨ units = "SM")
               ∧ governing_distance d = Some (VNum x)
               ∧ b = (to_statute_miles units x <=? minimum)%float.
Proof.
  split; [apply bad_visibility_dict_inv|].
  intros (units & x & Hunits & Hu & Hgov & ->).
  by apply bad_visibility_dict.
Qed.

(** X2. How [bad_visibility] fails on a dictionary: without ['minimum']
    and ['prevailing'] the distance is never bound; with one of them but
    without ['units'] the lookup of the units fails; with units other
    than ['FT'] and ['SM'] the distance is never bound; with a governing
    field that is a string the arithmetic or the comparison fails. *)
Theorem bad_visibility_errors (d : pydict) (minimum : float) :
  (governing_distance d = None →
   bad_visibility (VisDict d) minimum = Raise (UnboundLocalError "viz"))
  ∧ (is_Some (governing_distance d) → d !! "units" = None →
     bad_visibility (VisDict d) minimum = Raise (KeyError "units"))
  ∧ (∀ u, is_Some (governing_distance d) → d !! "units" = Some u →
          u ≠ VStr "FT" → u ≠ VStr "SM" →
     bad_visibility (VisDict d) minimum = Raise (UnboundLocalError "viz"))
  ∧ (∀ units s, governing_distance d = Some (VStr s) →
                d !! "units" = Some (VStr units) →
                units = "FT" ∨ units = "SM" →
     bad_visibility (VisDict d) minimum = Raise TypeError).
Proof.
  unfold bad_visibility, governing_distance.
  assert (Hunit : ∀ u, u ≠ VStr "FT" → u ≠ VStr "SM" →
                       value_is u "FT" = false ∧ value_is u "SM" = false).
  { intros u Hft Hsm. split.
    - destruct (value_is u "FT") eqn:E; [|done]. by apply value_is_true in E.
    - destruct (value_is u "SM") eqn:E; [|done]. by apply value_is_true in E. }
  destruct (d !! "minimum") as [v|] eqn:Emin.
  - rewrite (has_key_Some _ _ _ Emin), (getitem_Some _ _ _ Emin).
    repeat split.
    + done.
    + intros _ Hunits. by rewrite (getitem_None _ _ Hunits).
    + intros u _ Hunits Hft Hsm. rewrite (getitem_Some _ _ _ Hunits). cbn.
      by destruct (Hunit u Hft Hsm) as [-> ->].
    + intros units s [= ->] Hunits Hu. rewrite (getitem_Some _ _ _ Hunits).
      by destruct Hu as [-> | ->].
  - rewrite (has_key_None _ _ Emin).
    destruct (d !! "prevailing") as [v|] eqn:Eprev.
    + rewrite (has_key_Some _ _ _ Eprev), (getitem_Some _ _ _ Eprev).
      repeat split.
      * done.
      * intros _ Hunits. by rewrite (getitem_None _ _ Hunits).
      * intros u _ Hunits Hft Hsm. rewrite (getitem_Some _ _ _ Hunits). cbn.
        by destruct (Hunit u Hft Hsm) as [-> ->].
      * intros units s [= ->] Hunits Hu. rewrite (getitem_Some _ _ _ Hunits).
        by destruct Hu as [-> | ->].
    + rewrite (has_key_None _ _ Eprev). repeat split; try done.
      all: try (by intros [? ?]); by intros ? [? ?].
Qed.

Lemma bad_visibility_errors_witness :
  bad_visibility (VisDict {[ "units" := VStr "SM" ]}) 3
  = Raise (UnboundLocalError "viz")
  ∧ bad_visibility (VisDict {[ "prevailing" := VNum 10 ]}) 3
    = Raise (KeyError "units")
  ∧ bad_visibility (VisDict {[ "prevailing" := VNum 10; "units" := VStr "KM" ]}) 3
    = Raise (UnboundLocalError "viz")
  ∧ bad_visibility (VisDict {[ "prevailing" := VStr "10"; "units" := VStr "SM" ]}) 3
    = Raise TypeError.
Proof.
  split; [|split; [|split]].
  - destruct (bad_visibility_errors {[ "units" := VStr "SM" ]} 3)
      as (Hnone & _).
    apply Hnone. vm_compute. reflexivity.
  - destruct (bad_visibility_errors {[ "prevailing" := VNum 10 ]} 3)
      as (_ & Hkey & _).
    apply Hkey; [eexists|]; vm_compute; reflexivity.
  - destruct (bad_visibility_errors
                {[ "prevailing" := VNum 10; "units" := VStr "KM" ]} 3)
      as (_ & _ & Hunits & _).
    apply (Hunits (VStr "KM")); done.
  - destruct (bad_visibility_errors
                {[ "prevailing" := VStr "10"; "units" := VStr "SM" ]} 3)
      as (_ & _ & _ & Hstr).
    apply (Hstr "SM" "10"); [vm_compute; reflexivity | vm_compute; reflexivity |].
    by right.
Defined.

(** X3. [bad_visibility] never reads the field ['maximum'], and does not
    read ['prevailing'] when ['minimum'] is present: setting or removing
    them leaves the outcome as it is. *)
Theorem bad_visibility_ignored_fields (d : pydict) (v : value) (minimum : float) :
  bad_visibility (VisDict (<["maximum" := v]> d)) minimum
  = bad_visibility (VisDict d) minimum
  ∧ bad_visibility (VisDict (delete "maximum" d)) minimum
    = bad_visibility (VisDict d) minimum
  ∧ (is_Some (d !! "minimum") →
     bad_visibility (VisDict (<["prevailing" := v]> d)) minimum
     = bad_visibility (VisDict d) minimum
     ∧ bad_visibility (VisDict (delete "prevailing" d)) minimum
       = bad_visibility (VisDict d) minimum).
Proof.
  unfold bad_visibility, has_key, getitem. repeat split.
  - by rewrite !lookup_insert_ne.
  - by rewrite !lookup_delete_ne.
  - rewrite !lookup_insert_ne by done.
    by rewrite (bool_decide_eq_true_2 (is_Some (d !! "minimum"))).
  - rewrite !lookup_delete_ne by done.
    by rewrite (bool_decide_eq_true_2 (is_Some (d !! "minimum"))).
Qed.

Lemma bad_visibility_ignored_fields_witness :
  let d : pydict := {[ "minimum" := VNum 2; "units" := VStr "SM" ]} in
  bad_visibility (VisDict (<["maximum" := VNum 9]> d)) 3
  = bad_visibility (VisDict d) 3
  ∧ bad_visibility (VisDict (<["prevailing" := VNum 9]> d)) 3
    = bad_visibility (VisDict d) 3.
Proof.
  intros d.
  destruct (bad_visibility_ignored_fields d (VNum 9) 3) as (Hmax & _ & Hprev).
  split; [exact Hmax|]. apply Hprev. eexists. vm_compute. reflexivity.
Defined.

(** ** The wind check: ignored speed, failures *)

(** X4. When the gusts are present, [bad_winds] does not read the speed:
    setting or removing ['speed'] leaves the outcome as it is, also when
    the speed is above the gusts. *)
Theorem bad_winds_gusts_hide_speed (d : pydict) (v : value)
    (maxwind maxcross : float) :
  is_Some (d !! "gusts") →
  bad_winds (WindDict (<["speed" := v]> d)) maxwind maxcross
  = bad_winds (WindDict d) maxwind maxcross
  ∧ bad_winds (WindDict (delete "speed" d)) maxwind maxcross
    = bad_winds (WindDict d) maxwind maxcross.
Proof.
  intros Hgusts. unfold bad_winds, has_key, getitem. split.
  - rewrite (lookup_insert_ne d "speed" "units"),
      (lookup_insert_ne d "speed" "crosswind"),
      (lookup_insert_ne d "speed" "gusts") by done.
    by rewrite (bool_decide_eq_true_2 (is_Some (d !! "gusts"))).
  - rewrite (lookup_delete_ne d "speed" "units"),
      (lookup_delete_ne d "speed" "crosswind"),
      (lookup_delete_ne d "speed" "gusts") by done.
    by rewrite (bool_decide_eq_true_2 (is_Some (d !! "gusts"))).
Qed.

Lemma bad_winds_gusts_hide_speed_witness :
  let d : pydict := {[ "crosswind" := VNum 2; "gusts" := VNum 10;
                       "units" := VStr "KT" ]} in
  bad_winds (WindDict (<["speed" := VNum 30]> d)) 20 8
  = bad_winds (WindDict d) 20 8
  ∧ bad_winds (WindDict (delete "speed" d)) 20 8 = bad_winds (WindDict d) 20 8.
Proof.
  intros d. apply (bad_winds_gusts_hide_speed d (VNum 30) 20 8).
  eexists. vm_compute. reflexivity.
Defined.

(** X5. How [bad_winds] fails on a dictionary: without ['units'] the
    lookup of the units fails; with units other than ['MPS'] and ['KT']
    the wind value is never bound; with such units and a crosswind but
    neither gusts nor speed the wind value is never bound either. *)
Theorem bad_winds_errors (d : pydict) (maxwind maxcross : float) :
  (d !! "units" = None →
   bad_winds (WindDict d) maxwind maxcross = Raise (KeyError "units"))
  ∧ (∀ u, d !! "units" = Some u → u ≠ VStr "MPS" → u ≠ VStr "KT" →
     bad_winds (WindDict d) maxwind maxcross
     = Raise (UnboundLocalError "windz"))
  ∧ (∀ units c, d !! "units" = Some (VStr units) →
                units = "KT" ∨ units = "MPS" →
                d !! "crosswind" = Some (VNum c) →
                d !! "gusts" = None → d !! "speed" = None →
     bad_winds (WindDict d) maxwind maxcross
     = Raise (UnboundLocalError "windz")).
Proof.
  unfold bad_winds. repeat split.
  - intros Hunits. by rewrite (getitem_None _ _ Hunits).
  - intros u Hunits Hmps Hkt. rewrite (getitem_Some _ _ _ Hunits). cbn.
    destruct (value_is u "MPS") eqn:E1; [by apply value_is_true in E1|].
    destruct (value_is u "KT") eqn:E2; [by apply value_is_true in E2|].
    done.
  - intros units c Hunits Hu Hcross Hgusts Hspeed.
    rewrite (getitem_Some _ _ _ Hunits), (getitem_Some _ _ _ Hcross),
      (has_key_None _ _ Hgusts), (has_key_None _ _ Hspeed).
    by destruct Hu as [-> | ->].
Qed.

Lemma bad_winds_errors_witness :
  bad_winds (WindDict {[ "speed" := VNum 12 ]}) 20 8 = Raise (KeyError "units")
  ∧ bad_winds (WindDict {[ "speed" := VNum 12; "units" := VStr "MPH" ]}) 20 8
    = Raise (UnboundLocalError "windz")
  ∧ bad_winds (WindDict {[ "crosswind" := VNum 2; "units" := VStr "KT" ]}) 20 8
    = Raise (UnboundLocalError "windz").
Proof.
  split; [|split].
  - destruct (bad_winds_errors {[ "speed" := VNum 12 ]} 20 8) as (Hkey & _).
    apply Hkey. vm_compute. reflexivity.
  - destruct (bad_winds_errors
                {[ "speed" := VNum 12; "units" := VStr "MPH" ]} 20 8)
      as (_ & Hunits & _).
    apply (Hunits (VStr "MPH")); done.
  - destruct (bad_winds_errors
                {[ "crosswind" := VNum 2; "units" := VStr "KT" ]} 20 8)
      as (_ & _ & Hwind).
    apply (Hwind "KT" 2%float); try (vm_compute; reflexivity). by left.
Defined.

(** ** Stricter minimums *)

Lemma bad_visibility_stricter (visibility : visibility_measurement)
    (m m' : float) (b : bool) :
  bad_visibility visibility m = Ok b → (m <=? m')%float = true →
  ∃ b', bad_visibility visibility m' = Ok b' ∧ (b = true → b' = true).
Proof.
  destruct visibility as [|d]; [by exists true|].
  intros (units & x & Hunits & Hu & Hgov & ->)%bad_visibility_dict_inv Hle.
  eexists. split; [by apply bad_visibility_dict|].
  intros Hb. by apply float_leb_trans with m.
Qed.

Lemma bad_winds_stricter (winds : wind_measurement)
    (mw mc mw' mc' : float) (b : bool) :
  bad_winds winds mw mc = Ok b →
  (mw' <=? mw)%float = true → (mc' <=? mc)%float = true →
  ∃ b', bad_winds winds mw' mc' = Ok b' ∧ (b = true → b' = true).
Proof.
  destruct winds as [| |d];
    [intros [= <-]; by exists false | by exists true |].
  unfold bad_winds. intros H Hw Hc.
  destruct (getitem d "units") as [u|]; [|done]. cbn in H |- *.
  match type of H with
  | mbind _ ?r = _ => destruct r as [[windz crozz]|]; [|done]
  end.
  cbn in H |- *. destruct windz as [[x|s]|]; try done. cbn in H |- *.
  destruct (mw <? x)%float eqn:E1.
  - rewrite (float_leb_ltb_trans _ _ _ Hw E1). by exists true.
  - destruct crozz as [[c|s]|]; try done. cbn in H.
    destruct (mw' <? x)%float; [by exists true|].
    cbn. eexists. split; [done|]. intros ->. injection H as H.
    by apply float_leb_ltb_trans with mc.
Qed.

Lemma bad_ceiling_stricter (ceiling : ceiling_measurement)
    (m m' : float) (b : bool) :
  bad_ceiling ceiling m = Ok b → (m <=? m')%float = true →
  ∃ b', bad_ceiling ceiling m' = Ok b' ∧ (b = true → b' = true).
Proof.
  destruct ceiling as [| |layers];
    [intros [= <-]; by exists false | by exists true |].
  unfold bad_ceiling. intros H Hle.
  repeat match type of H with
  | mbind _ ?r = _ => destruct r; [|done]; cbn [mbind result_bind] in H |- *
  end.
  match type of H with
  | match ?l with _ => _ end = _ => destruct l as [|c0 comp]
  end; [injection H as <-; by exists false|].
  destruct (py_min (c0 :: comp)) as [[c|s]|]; try done.
  cbn in H |- *. eexists. split; [done|]. intros ->. injection H as H.
  by apply float_ltb_leb_trans with m.
Qed.

(** X6. Stricter minimums never clear a violation: when
    [get_weather_violation] returns a label other than the empty string,
    it still returns one for a higher ceiling minimum, a higher
    visibility minimum and lower wind and crosswind limits. *)
Theorem stricter_minimums_keep_violation (weather : option observation)
    (c v mw mc c' v' mw' mc' : float) (label : string) :
  get_weather_violation weather [c; v; mw; mc] = Ok label → label ≠ "" →
  (c <=? c')%float = true → (v <=? v')%float = true →
  (mw' <=? mw)%float = true → (mc' <=? mc)%float = true →
  ∃ label', get_weather_violation weather [c'; v'; mw'; mc'] = Ok label'
            ∧ label' ≠ "".
Proof.
  intros H Hlabel Hc Hv Hmw Hmc.
  destruct weather as [weather|]; [|by exists "Unknown"].
  unfold get_weather_violation, index in *. cbn in H |- *.
  destruct (bad_visibility (visibility weather) v) as [bv|] eqn:Ev; [|done].
  destruct (bad_visibility_stricter _ _ _ _ Ev Hv) as (bv' & -> & Hbv).
  cbn in H |- *.
  destruct (bad_winds (wind weather) mw mc) as [bw|] eqn:Ew; [|done].
  destruct (bad_winds_stricter _ _ _ _ _ _ Ew Hmw Hmc) as (bw' & -> & Hbw).
  cbn in H |- *.
  destruct (bad_ceiling (sky weather) c) as [bc|] eqn:Ec; [|done].
  destruct (bad_ceiling_stricter _ _ _ _ Ec Hc) as (bc' & -> & Hbc).
  cbn in H |- *.
  destruct bv, bw, bc; cbn in H; injection H as <-; try done;
    rewrite ?Hbv, ?Hbw, ?Hbc by done; cbn;
    destruct bv', bw', bc'; cbn; eexists; (split; [reflexivity|done]).
Qed.

Lemma stricter_minimums_keep_violation_witness :
  ∃ label', get_weather_violation (Some sample_report_0700) [2000; 5; 10; 1]%float
            = Ok label'
            ∧ label' ≠ "".
Proof.
  apply (stricter_minimums_keep_violation (Some sample_report_0700)
           1000 3 15 8 2000 5 10 1 "Ceiling");
    try (vm_compute; reflexivity).
  done.
Defined.

(** ** The ceiling check: ignored layers, order of the layers, failures *)

Lemma value_is_false (v : value) (s : string) : v ≠ VStr s → value_is v s = false.
Proof.
  intros Hne. destruct (value_is v s) eqn:E; [|done].
  by apply value_is_true in E.
Qed.

Lemma heights_of_type_skip (ty : string) (l1 l2 : list pydict)
    (layer : pydict) (t : value) :
  layer !! "type" = Some t → value_is t ty = false →
  heights_of_type ty (l1 ++ layer :: l2) = heights_of_type ty (l1 ++ l2).
Proof.
  intros Ht Hty. induction l1 as [|first l1 IH].
  - cbn -[value_is]. rewrite (getitem_Some _ _ _ Ht).
    cbn -[value_is]. by rewrite Hty.
  - cbn -[value_is]. by rewrite IH.
Qed.

(** X7. A layer whose type is none of ['scattered'], ['broken'],
    ['overcast'] and ['indefinite ceiling'] (such as ['a few']) is
    ignored by [bad_ceiling], whatever else it holds: the outcome is that
    of the list without it. *)
Theorem bad_ceiling_other_types (l1 l2 : list pydict) (layer : pydict)
    (t : value) (minimum : float) :
  layer !! "type" = Some t →
  t ≠ VStr "scattered" → t ≠ VStr "broken" → t ≠ VStr "overcast" →
  t ≠ VStr "indefinite ceiling" →
  bad_ceiling (Layers (l1 ++ layer :: l2)) minimum
  = bad_ceiling (Layers (l1 ++ l2)) minimum.
Proof.
  intros Ht Hs Hb Ho Hi. unfold bad_ceiling.
  by rewrite !(heights_of_type_skip _ l1 l2 layer t Ht)
    by by apply value_is_false.
Qed.

Lemma bad_ceiling_other_types_witness :
  let few : pydict := {[ "type" := VStr "a few" ]} in
  let overcast : pydict := {[ "type" := VStr "overcast"; "height" := VNum 1200 ]} in
  bad_ceiling (Layers ([] ++ few :: [overcast])) 2000
  = bad_ceiling (Layers ([] ++ [overcast])) 2000.
Proof.
  intros few overcast.
  apply (bad_ceiling_other_types [] [overcast] few (VStr "a few") 2000); done.
Defined.

Lemma key_le_antisym (a b : Z * Z * Z) : key_le a b → key_le b a → a = b.
Proof.
  unfold key_le, key_lt. intros [H1 | ->] [H2 | H2]; try done. lia.
Qed.

Lemma float_ltb_same_key (g g' m : float) :
  is_nan g = false → is_nan g' = false → float_key g = float_key g' →
  (g <? m)%float = (g' <? m)%float.
Proof.
  intros Hg Hg' Hkey. destruct (is_nan m) eqn:Hm.
  - assert (Prim2SF m = S754_nan) as Em.
    { destruct (Prim2SF m) eqn:E; try done;
        rewrite float_is_not_nan in Hm; try done; by rewrite E. }
    rewrite !ltb_spec, Em. unfold SFltb.
    by destruct (Prim2SF g), (Prim2SF g').
  - pose proof (float_ltb_key g m Hg Hm) as H1.
    pose proof (float_ltb_key g' m Hg' Hm) as H2.
    rewrite Hkey in H1.
    destruct (g <? m)%float, (g' <? m)%float; try done.
    + symmetry. apply H2, H1. done.
    + apply H1, H2. done.
Qed.

Lemma ceiling_heights_not_nan (layers : list pydict) (h : float) :
  Forall valid_layer layers →
  h ∈ heights "broken" layers ++ heights "overcast" layers
      ++ heights "indefinite ceiling" layers →
  is_nan h = false.
Proof.
  intros Hvalid [H | [H | H]%elem_of_app]%elem_of_app;
    eapply Forall_forall in H; try (by apply heights_not_nan); done.
Qed.

(** X8. For layers that each carry a type and a numeric height, the
    outcome of [bad_ceiling] does not depend on the order of the
    layers. *)
Theorem bad_ceiling_permutation (layers layers' : list pydict)
    (minimum : float) :
  Forall valid_layer layers → layers ≡ₚ layers' →
  bad_ceiling (Layers layers) minimum = bad_ceiling (Layers layers') minimum.
Proof.
  intros Hvalid Hperm.
  assert (Hvalid' : Forall valid_layer layers') by by rewrite <- Hperm.
  assert (Hsame : ∀ h,
            h ∈ heights "broken" layers ++ heights "overcast" layers
                ++ heights "indefinite ceiling" layers
            ↔ h ∈ heights "broken" layers' ++ heights "overcast" layers'
                  ++ heights "indefinite ceiling" layers').
  { intros h. rewrite <- !ceiling_at_heights.
    split; intros (layer & Hin & Hat); exists layer;
      (split; [|done]); [by rewrite <- Hperm | by rewrite Hperm]. }
  destruct (bad_ceiling_layers layers minimum Hvalid)
    as [[Hnone ->] | (g & [Hg_in Hg_le] & ->)];
    destruct (bad_ceiling_layers layers' minimum Hvalid')
      as [[Hnone' ->] | (g' & [Hg_in' Hg_le'] & ->)].
  - done.
  - apply Hsame in Hg_in'. rewrite Hnone in Hg_in'.
    by apply not_elem_of_nil in Hg_in'.
  - apply Hsame in Hg_in. rewrite Hnone' in Hg_in.
    by apply not_elem_of_nil in Hg_in.
  - f_equal. apply float_ltb_same_key.
    + by apply (ceiling_heights_not_nan layers).
    + by apply (ceiling_heights_not_nan layers').
    + apply key_le_antisym; [by apply Hg_le, Hsame | by apply Hg_le', Hsame].
Qed.

Lemma bad_ceiling_permutation_witness :
  let scattered : pydict := {[ "type" := VStr "scattered"; "height" := VNum 700 ]} in
  let overcast : pydict := {[ "type" := VStr "overcast"; "height" := VNum 1200 ]} in
  bad_ceiling (Layers [scattered; overcast]) 2000
  = bad_ceiling (Layers [overcast; scattered]) 2000.
Proof.
  intros scattered overcast.
  apply (bad_ceiling_permutation [scattered; overcast] [overcast; scattered]).
  - repeat constructor; eexists; vm_compute; try reflexivity;
      (split; reflexivity).
  - apply perm_swap.
Defined.

(** A loop of [bad_ceiling] returns or fails on a missing key. *)
Lemma heights_of_type_outcome (ty : string) (layers : list pydict) :
  (∃ hs, heights_of_type ty layers = Ok hs)
  ∨ heights_of_type ty layers = Raise (KeyError "type")
  ∨ heights_of_type ty layers = Raise (KeyError "height").
Proof.
  induction layers as [|layer rest IH]; [left; by exists []|].
  cbn. unfold getitem.
  destruct (layer !! "type") as [t|]; [cbn | by right; left].
  destruct (value_is t ty); [|done].
  destruct (layer !! "height") as [h|]; [cbn | by right; right].
  destruct IH as [[hs ->] | [-> | ->]];
    [left; by eexists | by right; left | by right; right].
Qed.

Lemma heights_of_type_unreadable (ty : string) (layers : list pydict)
    (layer : pydict) :
  layer ∈ layers → unreadable_for ty layer →
  ∀ hs, heights_of_type ty layers ≠ Ok hs.
Proof.
  intros Hin Hbad. induction layers as [|first rest IH];
    [by apply not_elem_of_nil in Hin|].
  intros hs. cbn. apply elem_of_cons in Hin as [<- | Hin].
  - destruct Hbad as [Ht | [Ht Hh]].
    + by rewrite (getitem_None _ _ Ht).
    + rewrite (getitem_Some _ _ _ Ht). cbn.
      rewrite bool_decide_eq_true_2 by done.
      by rewrite (getitem_None _ _ Hh).
  - destruct (getitem first "type") as [t|]; [cbn|done].
    destruct (value_is t ty).
    + destruct (getitem first "height"); [cbn|done].
      destruct (heights_of_type ty rest) as [hs'|] eqn:E; [|done].
      by destruct (IH Hin hs').
    + apply IH, Hin.
Qed.

(** X9. A layer without a type, or a scattered, broken, overcast or
    indefinite-ceiling layer without a height, makes [bad_ceiling] fail
    with a [KeyError] for ['type'] or ['height'] wherever it stands in the
    list, also when it is a scattered layer, which never decides the
    answer. *)
Theorem bad_ceiling_unreadable_layer (layers : list pydict) (layer : pydict)
    (ty : string) (minimum : float) :
  layer ∈ layers →
  ty ∈ ["scattered"; "broken"; "overcast"; "indefinite ceiling"] →
  unreadable_for ty layer →
  bad_ceiling (Layers layers) minimum = Raise (KeyError "type")
  ∨ bad_ceiling (Layers layers) minimum = Raise (KeyError "height").
Proof.
  intros Hin Hty Hbad. unfold bad_ceiling.
  pose proof (heights_of_type_unreadable ty layers layer Hin Hbad) as Hfail.
  destruct (heights_of_type_outcome "scattered" layers)
    as [[sc Hsc] | [-> | ->]]; [| by left | by right].
  destruct (heights_of_type_outcome "broken" layers)
    as [[br Hbr] | [Hbr | Hbr]]; rewrite Hsc, Hbr; [| by left | by right].
  destruct (heights_of_type_outcome "overcast" layers)
    as [[ov Hov] | [Hov | Hov]]; rewrite Hov; [| by left | by right].
  destruct (heights_of_type_outcome "indefinite ceiling" layers)
    as [[ic Hic] | [Hic | Hic]]; rewrite Hic; [| by left | by right].
  exfalso.
  repeat (apply elem_of_cons in Hty as [-> | Hty]; [by eapply Hfail|]).
  by apply not_elem_of_nil in Hty.
Qed.

Lemma bad_ceiling_unreadable_layer_witness :
  let overcast : pydict := {[ "type" := VStr "overcast"; "height" := VNum 1200 ]} in
  let scattered : pydict := {[ "type" := VStr "scattered" ]} in
  bad_ceiling (Layers [overcast; scattered]) 2000 = Raise (KeyError "type")
  ∨ bad_ceiling (Layers [overcast; scattered]) 2000 = Raise (KeyError "height").
Proof.
  intros overcast scattered.
  apply (bad_ceiling_unreadable_layer [overcast; scattered] scattered
           "scattered" 2000).
  - right. left.
  - left.
  - right. split; vm_compute; reflexivity.
Defined.

(** ** The classifier: what a returned label tells, and failures *)

(** X10. When [get_weather_violation] returns a label for a report, the
    minimums have at least four entries, the three checks returned, the
    label is the one of their verdicts and it is one of the empty
    string, ['Visibility'], ['Winds'], ['Ceiling'] and ['Weather'], never
    ['Unknown']. *)
Theorem get_weather_violation_returns (weather : observation)
    (minimums : list float) (label : string) :
  get_weather_violation (Some weather) minimums = Ok label →
  ∃ m0 m1 m2 m3 bv bw bc,
    minimums !! 0 = Some m0 ∧ minimums !! 1 = Some m1
    ∧ minimums !! 2 = Some m2 ∧ minimums !! 3 = Some m3
    ∧ bad_visibility (visibility weather) m1 = Ok bv
    ∧ bad_winds (wind weather) m2 m3 = Ok bw
    ∧ bad_ceiling (sky weather) m0 = Ok bc
    ∧ label = label_of bv bw bc
    ∧ label ∈ [""; "Visibility"; "Winds"; "Ceiling"; "Weather"].
Proof.
  unfold get_weather_violation, index.
  destruct (minimums !! 1) as [m1|] eqn:H1; [cbn|done].
  destruct (bad_visibility (visibility weather) m1) as [bv|] eqn:Hv; [cbn|done].
  destruct (minimums !! 2) as [m2|] eqn:H2; [cbn|done].
  destruct (minimums !! 3) as [m3|] eqn:H3; [cbn|done].
  destruct (bad_winds (wind weather) m2 m3) as [bw|] eqn:Hw; [cbn|done].
  destruct (minimums !! 0) as [m0|] eqn:H0; [cbn|done].
  destruct (bad_ceiling (sky weather) m0) as [bc|] eqn:Hc; [cbn|done].
  intros Hlabel. exists m0, m1, m2, m3, bv, bw, bc.
  repeat (split; [done|]).
  destruct bv, bw, bc; cbn in Hlabel; injection Hlabel as <-;
    (split; [reflexivity|]); set_solver.
Qed.

Lemma get_weather_violation_returns_witness :
  ∃ m0 m1 m2 m3 bv bw bc,
    sample_minimums !! 0 = Some m0 ∧ sample_minimums !! 1 = Some m1
    ∧ sample_minimums !! 2 = Some m2 ∧ sample_minimums !! 3 = Some m3
    ∧ bad_visibility (visibility sample_report_1000) m1 = Ok bv
    ∧ bad_winds (wind sample_report_1000) m2 m3 = Ok bw
    ∧ bad_ceiling (sky sample_report_1000) m0 = Ok bc
    ∧ "Weather" = label_of bv bw bc
    ∧ "Weather" ∈ [""; "Visibility"; "Winds"; "Ceiling"; "Weather"].
Proof.
  apply (get_weather_violation_returns sample_report_1000 sample_minimums).
  vm_compute. reflexivity.
Defined.

(** X11. [get_weather_violation] runs the three checks one after the
    other and stops at none of them: a check that raises makes the call
    raise the same exception, also when the checks before it have
    already found a violation. *)
Theorem get_weather_violation_check_failure (weather : observation)
    (minimums : list float) (m0 m1 m2 m3 : float) (e : exn) :
  minimums !! 0 = Some m0 → minimums !! 1 = Some m1 →
  minimums !! 2 = Some m2 → minimums !! 3 = Some m3 →
  (bad_visibility (visibility weather) m1 = Raise e →
   get_weather_violation (Some weather) minimums = Raise e)
  ∧ (∀ bv, bad_visibility (visibility weather) m1 = Ok bv →
           bad_winds (wind weather) m2 m3 = Raise e →
     get_weather_violation (Some weather) minimums = Raise e)
  ∧ (∀ bv bw, bad_visibility (visibility weather) m1 = Ok bv →
              bad_winds (wind weather) m2 m3 = Ok bw →
              bad_ceiling (sky weather) m0 = Raise e →
     get_weather_violation (Some weather) minimums = Raise e).
Proof.
  intros H0 H1 H2 H3. unfold get_weather_violation, index.
  rewrite H0, H1, H2, H3. cbn. repeat split.
  - by intros ->.
  - by intros bv -> ->.
  - by intros bv bw -> -> ->.
Qed.

Lemma get_weather_violation_check_failure_witness :
  let weather := {| visibility := VisUnavailable; wind := WindUnavailable;
                    sky := Layers [ {[ "height" := VNum 700 ]} ] |} in
  get_weather_violation (Some weather) sample_minimums
  = Raise (KeyError "type").
Proof.
  intros weather.
  destruct (get_weather_violation_check_failure weather sample_minimums
              1000 3 15 8 (KeyError "type")) as (_ & _ & Hceiling);
    [reflexivity | reflexivity | reflexivity | reflexivity |].
  apply (Hceiling true true); vm_compute; reflexivity.
Defined.

(** ** The resolver: what a returned report is, and failures *)

Section ResolverMore.
Context `{collaborators}.

Lemma before_keys_parsed (takeoff : datetime) (keys ks : list string) :
  before_keys takeoff keys = Ok ks →
  ∀ k, k ∈ keys → ∃ d, str_to_time k = Ok d.
Proof.
  revert ks. induction keys as [|key rest IH]; intros ks Hks k Hk.
  - by apply not_elem_of_nil in Hk.
  - cbn in Hks. destruct (str_to_time key) as [d|] eqn:Hd; [cbn in Hks|done].
    destruct (before_keys takeoff rest) as [later|]; [|done].
    apply elem_of_cons in Hk as [-> | Hk]; [eauto | by eapply IH].
Qed.

Lemma before_keys_inv (takeoff : datetime) (keys ks : list string) :
  before_keys takeoff keys = Ok ks →
  ∀ k, k ∈ ks ↔ k ∈ keys ∧ ∃ d, str_to_time k = Ok d
                   ∧ tzinfo d = tzinfo takeoff ∧ dt_compare d takeoff = Lt.
Proof.
  intros Hks.
  destruct (before_keys_spec takeoff keys (before_keys_parsed _ _ _ Hks))
    as (ks' & Hks' & Hiff).
  rewrite Hks in Hks'. by injection Hks' as <-.
Qed.

Lemma before_keys_unparsed (takeoff : datetime) (keys : list string)
    (key : string) (e : exn) :
  key ∈ keys → str_to_time key = Raise e →
  ∃ e', before_keys takeoff keys = Raise e'.
Proof.
  intros Hin Hkey.
  destruct (before_keys takeoff keys) as [ks|e'] eqn:E; [|by exists e'].
  destruct (before_keys_parsed _ _ _ E key Hin) as [d Hd]. congruence.
Qed.

(** X12. A report that [get_weather_report] returns is in the log: under
    the ISO representation of the takeoff, or else under a key whose
    instant has the offset of the takeoff and lies before it, and this
    key is the greatest, as a string, of all such keys. *)
Theorem get_weather_report_sound (takeoff : datetime)
    (weather : gmap string observation) (report : observation) :
  get_weather_report takeoff weather = Ok (Some report) →
  weather !! isoformat takeoff = Some report
  ∨ ∃ key d,
      prior_entry takeoff weather key d report
      ∧ ∀ key' d' report', prior_entry takeoff weather key' d' report' →
          String.compare key' key ≠ Gt.
Proof.
  unfold get_weather_report.
  destruct (weather !! isoformat takeoff) as [exact|]; [by intros [= ->]; left|].
  destruct (before_keys takeoff (map_to_list weather).*1) as [ks|] eqn:Hks;
    [cbn|done].
  pose proof (before_keys_inv _ _ _ Hks) as Hiff.
  destruct ks as [|k ks]; [done|]. cbn.
  destruct (max_from_greatest ks k) as [Hbest_in Hbest_le].
  set (best := max_from k ks) in *.
  destruct (negb (String.length best =? 0)); [|done].
  destruct (weather !! best) as [found|] eqn:Hfound; [|done].
  intros [= ->]. right.
  apply Hiff in Hbest_in as (_ & d & Hd & Htz & Hlt).
  exists best, d. split; [done|].
  intros key' d' report' (Hk' & Hd' & Htz' & Hlt').
  apply Hbest_le, Hiff. split; [apply elem_of_keys; eauto | eauto].
Qed.

(** X13. [get_weather_report] returns [None] only for a log that has the
    empty string among its keys: for every other log the call returns a
    report or raises. *)
Theorem get_weather_report_not_None (takeoff : datetime)
    (weather : gmap string observation) :
  weather !! "" = None →
  get_weather_report takeoff weather ≠ Ok None.
Proof.
  intros Hempty. unfold get_weather_report.
  destruct (weather !! isoformat takeoff) as [exact|]; [done|].
  destruct (before_keys takeoff (map_to_list weather).*1) as [ks|] eqn:Hks;
    [cbn|done].
  pose proof (before_keys_inv _ _ _ Hks) as Hiff.
  destruct ks as [|k ks]; [done|]. cbn.
  destruct (max_from_greatest ks k) as [Hbest_in _].
  set (best := max_from k ks) in *.
  destruct (String.length best =? 0) eqn:Hlen; cbn.
  - apply Nat.eqb_eq in Hlen. destruct best; [|done].
    apply Hiff in Hbest_in as [[report Hin]%elem_of_keys _]. congruence.
  - by destruct (weather !! best).
Qed.

(** X14. Without the ISO representation of the takeoff among the keys,
    one key that is not a timestamp makes [get_weather_report] raise,
    whatever else the log holds. *)
Theorem get_weather_report_unparsed_key (takeoff : datetime)
    (weather : gmap string observation) (key : string)
    (report : observation) (e : exn) :
  weather !! isoformat takeoff = None →
  weather !! key = Some report → str_to_time key = Raise e →
  ∃ e', get_weather_report takeoff weather = Raise e'.
Proof.
  intros Hexact Hkey He. unfold get_weather_report. rewrite Hexact.
  destruct (before_keys_unparsed takeoff (map_to_list weather).*1 key e)
    as [e' ->]; [apply elem_of_keys; eauto | done |].
  by exists e'.
Qed.

End ResolverMore.

Lemma get_weather_report_sound_witness :
  sample_weather !! isoformat (takeoff_at 9 30) = Some sample_report_0900
  ∨ ∃ key d,
      prior_entry (H := sample) (takeoff_at 9 30) sample_weather key d
        sample_report_0900
      ∧ ∀ key' d' report',
          prior_entry (H := sample) (takeoff_at 9 30) sample_weather
            key' d' report' →
          String.compare key' key ≠ Gt.
Proof.
  apply (get_weather_report_sound (H := sample) (takeoff_at 9 30)
           sample_weather sample_report_0900).
  vm_compute. reflexivity.
Defined.

Lemma get_weather_report_not_None_witness :
  get_weather_report (H := sample) (takeoff_at 9 30) sample_weather ≠ Ok None.
Proof.
  apply (get_weather_report_not_None (H := sample)).
  vm_compute. reflexivity.
Defined.

Lemma get_weather_report_unparsed_key_witness :
  ∃ e', get_weather_report (H := sample) (takeoff_at 9 30)
          (<["yesterday" := sample_report_0900]> sample_weather)
        = Raise e'.
Proof.
  apply (get_weather_report_unparsed_key (H := sample) (takeoff_at 9 30)
           (<["yesterday" := sample_report_0900]> sample_weather)
           "yesterday" sample_report_0900 (ExternalError "str_to_time"));
    vm_compute; reflexivity.
Defined.

(** ** The audit driver: stale flight rules, short rows, effects *)

Section DriverMore.
Context `{collaborators}.

(** X15. A lesson whose FILED field is neither ['VFR'] nor ['IFR'] leaves
    the flag [vfr] as the lesson before it set it: as the first lesson it
    makes the audit fail, and after another lesson it is judged as if it
    had that lesson's flight rules. *)
Theorem lesson_violation_stale_vfr (daycycle : Daycycle)
    (weather : gmap string observation)
    (minimums students : list (list string)) (line : list string)
    (filed : string) (previous : bool) :
  line !! 5 = Some filed → filed ≠ "VFR" → filed ≠ "IFR" →
  (∀ r, lesson_violation daycycle weather minimums students None line ≠ Ok r)
  ∧ lesson_violation daycycle weather minimums students (Some previous) line
    = lesson_violation daycycle weather minimums students None
        (<[5 := if previous then "VFR" else "IFR"]> line).
Proof.
  intros Hfiled Hvfr Hifr. split.
  - intros r. unfold lesson_violation, index. rewrite Hfiled.
    destruct (line !! 3) as [stamp|]; [cbn|done].
    destruct (str_to_time stamp) as [takeoff|]; [cbn|done].
    destruct (line !! 0) as [id|]; [cbn|done].
    destruct (get_for_id id students) as [student|]; [cbn|done].
    destruct (get_certification takeoff student) as [cert|]; [cbn|done].
    destruct (line !! 2) as [instructor|]; [cbn|done].
    rewrite !bool_decide_eq_false_2 by done.
    by destruct (line !! 6).
  - assert (5 < length line) by by eapply lookup_lt_Some.
    unfold lesson_violation, index.
    rewrite (list_lookup_insert_ne line 5 3), (list_lookup_insert_ne line 5 0),
      (list_lookup_insert_ne line 5 2), (list_lookup_insert_ne line 5 6)
      by done.
    rewrite list_lookup_insert_eq by done. rewrite Hfiled.
    destruct (line !! 3) as [stamp|]; [cbn|done].
    destruct (str_to_time stamp) as [takeoff|]; [cbn|done].
    destruct (line !! 0) as [id|]; [cbn|done].
    destruct (get_for_id id students) as [student|]; [cbn|done].
    destruct (get_certification takeoff student) as [cert|]; [cbn|done].
    destruct (line !! 2) as [instructor|]; [cbn|done].
    rewrite (bool_decide_eq_false_2 (filed = "VFR")),
      (bool_decide_eq_false_2 (filed = "IFR")) by done.
    destruct previous; decide_literals; reflexivity.
Qed.

Lemma lesson_violation_short_row (daycycle : Daycycle)
    (weather : gmap string observation)
    (minimums students : list (list string)) (line : list string)
    (vfr : option bool) :
  length line < 7 →
  ∃ e, lesson_violation daycycle weather minimums students vfr line = Raise e.
Proof.
  intros Hshort. unfold lesson_violation, index.
  rewrite (lookup_ge_None_2 line 6) by lia.
  destruct (line !! 3) as [stamp|]; [cbn|by eexists].
  destruct (str_to_time stamp) as [takeoff|]; [cbn|by eexists].
  destruct (line !! 0) as [id|]; [cbn|by eexists].
  destruct (get_for_id id students) as [student|]; [cbn|by eexists].
  destruct (get_certification takeoff student) as [cert|]; [cbn|by eexists].
  destruct (line !! 2) as [instructor|]; [cbn|by eexists].
  destruct (line !! 5) as [filed|]; [cbn|by eexists].
  by eexists.
Qed.

Lemma lessons_loop_abort (daycycle : Daycycle)
    (weather : gmap string observation)
    (minimums students : list (list string))
    (before after : list (list string)) (line : list string)
    (labels : list string) :
  Forall2 (λ line label,
             record_label daycycle weather minimums students line = Ok label)
          before labels →
  (∀ vfr, ∃ e, lesson_violation daycycle weather minimums students vfr line
               = Raise e) →
  ∀ vfr results,
    ∃ e, lessons_loop daycycle weather minimums students
           (before ++ line :: after) vfr results = Raise e.
Proof.
  intros Hlabels Hline.
  induction Hlabels as [|first label before labels Hlabel _ IH];
    intros vfr results.
  - destruct (Hline vfr) as [e He]. exists e. cbn. by rewrite He.
  - destruct (lesson_violation_any_vfr _ _ _ _ _ _ vfr Hlabel) as [vfr' Hstep].
    cbn [app lessons_loop]. rewrite Hstep. cbn [mbind result_bind]. apply IH.
Qed.

(** X16. No partial result: when the files are read and a lesson has
    fewer than seven fields, [list_weather_violations] raises, whatever
    violations the lessons before it have shown. *)
Theorem list_weather_violations_short_row (directory : string)
    (daycycle : Daycycle) (weather : gmap string observation)
    (minimums students table before after : list (list string))
    (line : list string) (labels : list string) :
  read_json_daycycle (path_join directory DAYCYCLE) = Ok daycycle →
  read_json_weather (path_join directory WEATHER) = Ok weather →
  read_csv (path_join directory MINIMUMS) = Ok minimums →
  read_csv (path_join directory STUDENTS) = Ok students →
  read_csv (path_join directory LESSONS) = Ok table →
  drop 1 table = before ++ line :: after →
  Forall2 (λ line label,
             record_label daycycle weather minimums students line = Ok label)
          before labels →
  length line < 7 →
  ∃ e, outcome (list_weather_violations directory) = Raise e.
Proof.
  intros Hday Hweather Hmin Hstud Hlessons Htable Hlabels Hshort.
  unfold list_weather_violations, read, mbind, io_bind. cbn.
  rewrite Hday. cbn. rewrite Hweather. cbn. rewrite Hmin. cbn.
  rewrite Hstud. cbn. rewrite Hlessons. cbn. rewrite Htable.
  apply (lessons_loop_abort _ _ _ _ _ _ _ _ Hlabels).
  intros vfr. by apply lesson_violation_short_row.
Qed.

(** The events of [list_weather_violations] are reads. *)
Lemma list_weather_violations_events (directory : string) (ev : event) :
  ev ∈ trace (list_weather_violations directory) → ∃ path, ev = ReadFile path.
Proof.
  unfold list_weather_violations, read, mbind, io_bind. cbn.
  destruct (read_json_daycycle _); cbn;
    [destruct (read_json_weather _); cbn;
     [destruct (read_csv (path_join directory MINIMUMS)); cbn;
      [destruct (read_csv (path_join directory STUDENTS)); cbn;
       [destruct (read_csv (path_join directory LESSONS)); cbn|]|]|]|];
    rewrite ?elem_of_cons; intros Hev;
    repeat destruct Hev as [-> | Hev]; eauto;
    by apply not_elem_of_nil in Hev.
Qed.

(** The reads stop with the file number [n]: the cases of the proof
    below. *)
Local Ltac stop_at n :=
  exists n; split; [lia|]; split; [reflexivity|]; split;
  [intros j Hj; do 5 (destruct j as [|j]; [try reflexivity; lia|]); lia|];
  split; [intros Hn; cbn; first [lia | eauto]|];
  split; [intros ?; cbn; intros [= <-]; reflexivity|];
  intros ?; cbn; first [reflexivity | discriminate].

(** X17. [list_weather_violations] only reads, in the fixed order of the
    five files of the data set, and stops at the first file that cannot
    be read: its trace is the reads of the first [n] files, where every
    file before the last of them was read, the last is the one whose
    read failed when [n] is less than five, and a failure of that read
    is the exception raised. When the call returns, all five were
    read. *)
Theorem list_weather_violations_reads (directory : string) :
  ∃ n, 1 ≤ n ≤ 5
       ∧ trace (list_weather_violations directory)
         = take n (ReadFile <$> dataset_files directory)
       ∧ (∀ j, j + 1 < n → read_failure directory j = None)
       ∧ (n < 5 → is_Some (read_failure directory (n - 1)))
       ∧ (∀ e, read_failure directory (n - 1) = Some e →
            outcome (list_weather_violations directory) = Raise e)
       ∧ (∀ rows, outcome (list_weather_violations directory) = Ok rows →
            n = 5).
Proof.
  unfold list_weather_violations, read, mbind, io_bind, dataset_files,
    read_failure.
  cbn.
  destruct (read_json_daycycle _); cbn; [|stop_at 1].
  destruct (read_json_weather _); cbn; [|stop_at 2].
  destruct (read_csv (path_join directory MINIMUMS)); cbn; [|stop_at 3].
  destruct (read_csv (path_join directory STUDENTS)); cbn; [|stop_at 4].
  destruct (read_csv (path_join directory LESSONS)); cbn; stop_at 5.
Qed.

(** X18. When the violations cannot be listed, [discover_violations]
    writes and prints nothing and raises the same exception; when the
    file cannot be written, the summary line is not printed. *)
Theorem discover_violations_failure (directory : string) (output : argument) :
  (∀ e, outcome (list_weather_violations directory) = Raise e →
     discover_violations (ArgStr directory) output
     = IO (trace (list_weather_violations directory)) (Raise e))
  ∧ (∀ evs vios name e,
       list_weather_violations directory = IO evs (Ok vios) →
       output = ArgStr name →
       write_csv_result (HEADER ++ vios) name = Raise e →
       discover_violations (ArgStr directory) output
       = IO (evs ++ [WriteCsv (HEADER ++ vios) name]) (Raise e)).
Proof.
  split.
  - intros e He. unfold discover_violations, mbind, io_bind. by rewrite He.
  - intros evs vios name e Hlist -> Hwrite. unfold discover_violations.
    rewrite (io_bind_Ok _ _ _ _ Hlist). unfold write_csv.
    by rewrite Hwrite.
Qed.

End DriverMore.

Lemma lesson_violation_stale_vfr_witness :
  let line := ["S00758"; "548QR"; ""; "2017-04-21T07:00:00-04:00";
               "2017-04-21T08:00:00-04:00"; "SVFR"; "Pattern"] in
  (∀ r, lesson_violation (H := sample) () sample_weather [] [] None line
        ≠ Ok r)
  ∧ lesson_violation (H := sample) () sample_weather [] [] (Some false) line
    = lesson_violation (H := sample) () sample_weather [] [] None
        (<[5 := "IFR"]> line).
Proof.
  intros line.
  apply (lesson_violation_stale_vfr (H := sample) () sample_weather [] []
           line "SVFR" false); done.
Defined.

Lemma list_weather_violations_short_row_witness :
  ∃ e, outcome (list_weather_violations
                  (H := sample_with short_lessons (Ok ())) "KITH-2017")
       = Raise e.
Proof.
  apply (list_weather_violations_short_row
           (H := sample_with short_lessons (Ok ())) "KITH-2017" ()
           sample_weather [] [] short_lessons
           [["S00687"; "548QR"; "I061"; "2017-04-21T07:00:00-04:00";
             "2017-04-21T08:00:00-04:00"; "VFR"; "Pattern"]] []
           ["S00758"; "548QR"; ""; "2017-04-21T09:30:00-04:00"] ["Ceiling"]).
  1-6: vm_compute; reflexivity.
  - constructor; [vm_compute; reflexivity | constructor].
  - cbn. lia.
Defined.

Lemma discover_violations_failure_witness :
  discover_violations (H := sample) (ArgStr "nowhere") ArgNone
  = IO [ReadFile "nowhere/daycycle.json"]
       (Raise (ExternalError "no such file"))
  ∧ ∃ evs vios,
      discover_violations (H := sample_read_only) (ArgStr "KITH-2017")
        (ArgStr "out.csv")
      = IO (evs ++ [WriteCsv (HEADER ++ vios) "out.csv"])
           (Raise (ExternalError "read-only")).
Proof.
  split.
  - destruct (discover_violations_failure (H := sample) "nowhere" ArgNone)
      as [Hlist _].
    apply (Hlist (ExternalError "no such file")). vm_compute. reflexivity.
  - destruct (discover_violations_failure (H := sample_read_only) "KITH-2017"
                (ArgStr "out.csv")) as [_ Hwrite].
    destruct (list_weather_violations (H := sample_read_only) "KITH-2017")
      as [evs [vios|e]] eqn:Hlist; [|by vm_compute in Hlist].
    exists evs, vios. by apply Hwrite.
Defined.

Lemma list_weather_violations_reads_witness :
  list_weather_violations (H := sample) "nowhere"
  = IO [ReadFile "nowhere/daycycle.json"]
       (Raise (ExternalError "no such file")).
Proof.
  destruct (list_weather_violations_reads (H := sample) "nowhere")
    as (n & Hn & Htrace & Hbefore & _ & Hexn & _).
  assert (n = 1) as ->.
  { destruct n as [|[|n]]; [lia | reflexivity |].
    specialize (Hbefore 0 ltac:(lia)). vm_compute in Hbefore.
    discriminate Hbefore. }
  specialize (Hexn (ExternalError "no such file") eq_refl).
  destruct (list_weather_violations (H := sample) "nowhere")
    as [events result].
  cbn in Htrace, Hexn. by rewrite Htrace, Hexn.
Defined.

Lemma bad_visibility_returns_iff_witness :
  bad_visibility (VisDict {[ "prevailing" := VNum 10; "units" := VStr "SM" ]}) 3
  = Ok false.
Proof.
  apply bad_visibility_returns_iff. exists "SM", 10%float.
  repeat split; try (vm_compute; reflexivity). by right.
Defined.

(** ** The application: what [execute] and the script do *)

Section ApplicationMore.
Context `{collaborators}.

Lemma discover_violations_no_tests (directory output : argument) :
  TestAll ∉ trace (discover_violations directory output).
Proof.
  unfold discover_violations.
  destruct directory as [|directory|l]; [by apply not_elem_of_nil | |
                                          by apply not_elem_of_nil].
  pose proof (list_weather_violations_events directory TestAll) as Hreads.
  destruct (list_weather_violations directory) as [evs [vios|e]];
    unfold mbind, io_bind; cbn in *.
  - assert (TestAll ∉ evs) as Hevs by (by intros [path ?]%Hreads).
    destruct output as [|name|l]; cbn;
      try destruct (write_csv_result _ _); cbn;
      rewrite ?app_nil_r, ?elem_of_app, ?elem_of_cons, ?elem_of_nil;
      intros Hin; repeat (destruct Hin as [Hin | Hin]; [done|]); done.
  - by intros [path ?]%Hreads.
Qed.

Lemma single_test_argument (args : list string) :
  length args = 1 ∧ args !! 0 = Some "--test" → args = ["--test"].
Proof.
  destruct args as [|a0 [|a1 args]]; cbn; intros [Hlen Ha0]; try done.
  by injection Ha0 as ->.
Qed.

Lemma try_except_usage_no_tests (body : io ()) :
  TestAll ∉ trace body → TestAll ∉ trace (try_except body (print USAGE)).
Proof.
  intros Hbody. unfold try_except. destruct (outcome body); [done|]. cbn.
  by intros [? | [=]%list_elem_of_singleton]%elem_of_app.
Qed.

Lemma try_except_usage_returns (body : io ()) :
  outcome (try_except body (print USAGE)) = Ok ().
Proof.
  unfold try_except. by destruct (outcome body) as [[]|] eqn:E; [rewrite E|].
Qed.

(** X19. Apart from the single argument ['--test'], [execute] returns
    for every list of arguments: whatever the audit raises ends in the
    usage line. *)
Theorem execute_returns (args : list string) :
  args ≠ ["--test"] → outcome (execute args) = Ok ().
Proof.
  intros Hargs. unfold execute.
  destruct (bool_decide (length args = 0 ∨ 2 < length args)); [done|].
  destruct (bool_decide (length args = 2 ∧ args !! 1 = Some "--test")); [done|].
  destruct (bool_decide (length args = 2 ∧ args !! 0 = Some "--test")); [done|].
  case_bool_decide as Htest; [by apply single_test_argument in Htest|].
  apply try_except_usage_returns.
Qed.

(** X20. With a single argument other than ['--test'], [execute] calls
    [discover_violations] with one argument for its two parameters: the
    call raises before anything is read, and the usage line is all that
    happens. *)
Theorem execute_single_argument (directory : string) :
  directory ≠ "--test" →
  execute [directory] = IO [Print USAGE] (Ok ()).
Proof.
  intros Hdir. unfold execute. cbn.
  rewrite (bool_decide_eq_false_2 (1 = 0 ∨ 2 < 1)) by lia.
  rewrite !(bool_decide_eq_false_2 (1 = 2 ∧ _)) by lia.
  rewrite (bool_decide_eq_false_2 (1 = 1 ∧ _)) by (intros [_ [=]]; done).
  by rewrite (bool_decide_eq_true_2 (1 = 1)).
Qed.

(** X21. [execute] runs the test suite for the single argument
    ['--test'] and for no other list of arguments. *)
Theorem execute_tests_iff (args : list string) :
  TestAll ∈ trace (execute args) ↔ args = ["--test"].
Proof.
  split; [|by intros ->; left].
  unfold execute.
  destruct (bool_decide (length args = 0 ∨ 2 < length args));
    [by intros [=]%list_elem_of_singleton|].
  destruct (bool_decide (length args = 2 ∧ args !! 1 = Some "--test"));
    [by intros [=]%list_elem_of_singleton|].
  destruct (bool_decide (length args = 2 ∧ args !! 0 = Some "--test"));
    [by intros [=]%list_elem_of_singleton|].
  case_bool_decide as Htest; [intros _; by apply single_test_argument|].
  intros Hin. exfalso. revert Hin. apply try_except_usage_no_tests.
  destruct (bool_decide (length args = 1)); [by apply not_elem_of_nil|].
  destruct (bool_decide (length args = 2)); [|by apply not_elem_of_nil].
  destruct args as [|a0 [|a1 [|a2 args]]]; try by apply not_elem_of_nil.
  apply discover_violations_no_tests.
Qed.

Lemma chars_cons (c b : ascii) (s : string) :
  chars (String c (String b s))
  = if is_continuation b then
      match chars (String b s) with
      | first :: others => String c first :: others
      | [] => [String c EmptyString]
      end
    else String c EmptyString :: chars (String b s).
Proof. reflexivity. Qed.

(** The first character begins with the first byte. *)
Lemma chars_head (b : ascii) (s : string) :
  ∃ t others, chars (String b s) = String b t :: others.
Proof.
  destruct s as [|b' s]; [by exists EmptyString, []|].
  rewrite chars_cons. destruct (is_continuation b'); [|eauto].
  destruct (chars (String b' s)); eauto.
Qed.

(** A byte after the first of a character is a continuation byte. *)
Lemma chars_one_character (s x : string) (c b : ascii) (t : string) :
  x ∈ chars s → x = String c (String b t) → is_continuation b = true.
Proof.
  revert x c b t. induction s as [|c0 s IH]; intros x c b t.
  { by intros ?%not_elem_of_nil. }
  destruct s as [|b0 s].
  { cbn. by intros ->%list_elem_of_singleton. }
  rewrite chars_cons.
  destruct (chars_head b0 s) as (t0 & others & Hhead).
  destruct (is_continuation b0) eqn:Hb0.
  - rewrite Hhead in IH |- *.
    intros [-> | Hin]%elem_of_cons; [congruence|].
    apply IH. by right.
  - intros [-> | Hin]%elem_of_cons; [done|]. by apply IH.
Qed.

(** No character is the text ['--test']. *)
Lemma chars_not_test (s x : string) : x ∈ chars s → x ≠ "--test".
Proof.
  intros Hin ->.
  by pose proof (chars_one_character _ _ _ _ _ Hin eq_refl) as Hc.
Qed.

(** X22. The script unpacks the command-line arguments into the call of
    [execute], which has one parameter. So no argument, or more than one,
    raises [TypeError]; a single argument is taken as the sequence of
    its characters: unless it has two characters, the usage line is
    printed and nothing is audited, whatever directory it names; and an
    argument of two characters audits the directory named by the first
    and writes to the file named by the second. *)
Theorem main_spec (argv : list string) :
  (length argv ≠ 2 → main argv = IO [] (Raise TypeError))
  ∧ (∀ prog arg, argv = [prog; arg] → utf8 arg = true →
       length (chars arg) ≠ 2 →
       main argv = IO [Print USAGE] (Ok ()))
  ∧ (∀ prog arg a0 a1, argv = [prog; arg] → utf8 arg = true →
       chars arg = [a0; a1] →
       main argv
       = try_except (discover_violations (ArgStr a0) (ArgStr a1))
           (print USAGE)).
Proof.
  split; [|split].
  - intros Hlen. unfold main.
    destruct argv as [|prog [|arg [|more argv]]]; cbn in *; done.
  - intros prog arg -> _ Hlen. unfold main, execute_str. cbn [drop].
    destruct (chars arg) as [|a0 [|a1 [|a2 rest]]] eqn:Hchars;
      cbn in *; try done.
    rewrite (bool_decide_eq_false_2 (1 = 0 ∨ 2 < 1)) by lia.
    rewrite !(bool_decide_eq_false_2 (1 = 2 ∧ _)) by lia.
    rewrite (bool_decide_eq_false_2 (1 = 1 ∧ _)).
    + by rewrite (bool_decide_eq_true_2 (1 = 1)).
    + intros [_ [= ->]]. eapply chars_not_test; [|done].
      rewrite Hchars. by left.
  - intros prog arg a0 a1 -> _ Hchars. unfold main, execute_str. cbn [drop].
    rewrite Hchars. cbn.
    assert (a0 ≠ "--test") as H0.
    { eapply chars_not_test. rewrite Hchars. by left. }
    assert (a1 ≠ "--test") as H1.
    { eapply chars_not_test. rewrite Hchars. right. by left. }
    rewrite (bool_decide_eq_false_2 (2 = 0 ∨ 2 < 2)) by lia.
    rewrite !(bool_decide_eq_false_2 (2 = 2 ∧ _)) by (intros [_ [=]]; done).
    rewrite (bool_decide_eq_false_2 (2 = 1 ∧ _)) by lia.
    rewrite (bool_decide_eq_false_2 (2 = 1)) by lia.
    by rewrite (bool_decide_eq_true_2 (2 = 2)).
Qed.

End ApplicationMore.

Lemma execute_returns_witness :
  outcome (execute (H := sample) ["nowhere"; "out.csv"]) = Ok ().
Proof. apply (execute_returns (H := sample)). done. Defined.

Lemma execute_single_argument_witness :
  execute (H := sample) ["KITH-2017"] = IO [Print USAGE] (Ok ()).
Proof. apply (execute_single_argument (H := sample)). done. Defined.

Lemma execute_tests_iff_witness :
  TestAll ∈ trace (execute (H := sample) ["--test"]).
Proof. by apply (execute_tests_iff (H := sample)). Defined.

Lemma main_spec_witness :
  main (H := sample) ["auditor"] = IO [] (Raise TypeError)
  ∧ main (H := sample) ["auditor"; "KITH-2017"; "out.csv"]
    = IO [] (Raise TypeError)
  ∧ main (H := sample) ["auditor"; "KITH-2017"] = IO [Print USAGE] (Ok ())
  ∧ main (H := sample) ["auditor"; "--test"] = IO [Print USAGE] (Ok ())
  ∧ main (H := sample) ["auditor"; String "195" (String "169" EmptyString)]
    = IO [Print USAGE] (Ok ())
  ∧ main (H := sample) ["auditor"; "ab"]
    = try_except (discover_violations (H := sample) (ArgStr "a") (ArgStr "b"))
        (print USAGE).
Proof.
  split; [|split; [|split; [|split; [|split]]]].
  - apply (main_spec (H := sample) ["auditor"]). cbn. lia.
  - apply (main_spec (H := sample) ["auditor"; "KITH-2017"; "out.csv"]).
    cbn. lia.
  - destruct (main_spec (H := sample) ["auditor"; "KITH-2017"])
      as (_ & Husage & _).
    apply (Husage "auditor" "KITH-2017");
      [reflexivity | reflexivity | vm_compute; lia].
  - destruct (main_spec (H := sample) ["auditor"; "--test"])
      as (_ & Husage & _).
    apply (Husage "auditor" "--test");
      [reflexivity | reflexivity | vm_compute; lia].
  - destruct (main_spec (H := sample)
                ["auditor"; String "195" (String "169" EmptyString)])
      as (_ & Husage & _).
    apply (Husage "auditor" (String "195" (String "169" EmptyString)));
      [reflexivity | reflexivity | vm_compute; lia].
  - destruct (main_spec (H := sample) ["auditor"; "ab"]) as (_ & _ & Hpair).
    apply (Hpair "auditor" "ab" "a" "b"); reflexivity.
Defined.
